(** * ConnectMe: call signaling and session orchestration

    A shallow embedding of the voice-call subsystem of the ConnectMe client:

    - [src/services/callService.ts]      the [CallService] store adapter,
    - [src/hooks/useCallTimer.ts]        the call timer,
    - [src/hooks/useWebRTC.ts]           microphone, peer connection, candidates,
    - [src/contexts/CallStateContext.tsx] the shared call state,
    - [src/contexts/IncomingCallContext.tsx] the incoming-call watcher,
    - [src/contexts/CallContext.tsx]     [initiateCall], [acceptCall],
                                         [declineCall], [endCall], [toggleMute].

    The program is a set of React function components.  Three kinds of state
    are kept apart, as the code keeps them apart:

    - React state ([useState]): read by a function through the values its
      render captured, written through setters.  A function created by one
      render keeps reading that render's values however the state moves on
      afterwards; the record [Render] is such a snapshot and every operation
      of [CallContext.tsx] takes the [Render] it closes over as an argument.
    - refs ([useRef]): mutable cells, always read at their current value.
    - the world outside the component: the Firestore collection [calls], the
      browser's timers, snapshot listeners and peer connections.

    External primitives whose result the code cannot determine (microphone
    acquisition, offer creation, applying a remote description, the id that
    Firestore gives to a new document) are inputs of the operations.

    An [async] function runs without interruption up to an [await] and again
    from there on; other callbacks can run in between.  [endCall],
    [declineCall] and [addIceCandidate] (with the [onicecandidate] handler
    that calls it) are given in two halves, before and after their [await]
    of a store access; the function of the same name is the run with
    nothing in between.  [initiateCall] and [acceptCall] are modelled as
    running through.

    The toasts are those of react-hot-toast, whose [toast] has [success] and
    [error] (and [loading], [custom]) but no [info]: see [toast_info].

    Left out: server timestamps, wall-clock readings, desktop
    notifications, console logging, and the effect of [CallContext] that
    mirrors the store's call records into [callHistory]
    ([subscribeToCallHistory]); [callHistory] holds what [endCall] appends. *)

From stdpp Require Import gmap strings list fin_maps.
From stdpp Require Import pretty.


(** ** Data model *)

Record RTCSessionDescriptionInit := mkSdp { sdp_type : string; sdp : string }.

(** A connectivity candidate is an opaque payload ([candidate.toJSON()]). *)
Definition RTCIceCandidateInit := string.

(** [CallData] of [callService.ts].  The document stored under an id is
    [CallData.doc]; a snapshot handed to a callback adds the id
    ([{ id: doc.id, ...data }]).  The server timestamp is left out: no
    operation of the call flow reads it. *)
Module CallData.
Inductive Status := ringing | accepted | declined | ended.

Record doc := mkDoc {
  callerId : string;
  receiverId : string;
  callerName : string;
  receiverName : string;
  callerPhoto : string;
  receiverPhoto : string;
  status : Status;
  offer : option RTCSessionDescriptionInit;
  answer : option RTCSessionDescriptionInit;
  callerCandidates : list RTCIceCandidateInit;
  receiverCandidates : list RTCIceCandidateInit;
  duration : option nat
}.

Record t := mk { id : string; data : doc }.

Definition set_status (s : Status) (d : doc) : doc :=
  mkDoc (callerId d) (receiverId d) (callerName d) (receiverName d)
        (callerPhoto d) (receiverPhoto d) s (offer d) (answer d)
        (callerCandidates d) (receiverCandidates d) (duration d).

Definition set_answer (a : RTCSessionDescriptionInit) (d : doc) : doc :=
  mkDoc (callerId d) (receiverId d) (callerName d) (receiverName d)
        (callerPhoto d) (receiverPhoto d) (status d) (offer d) (Some a)
        (callerCandidates d) (receiverCandidates d) (duration d).

Definition set_duration (n : nat) (d : doc) : doc :=
  mkDoc (callerId d) (receiverId d) (callerName d) (receiverName d)
        (callerPhoto d) (receiverPhoto d) (status d) (offer d) (answer d)
        (callerCandidates d) (receiverCandidates d) (Some n).

Definition set_callerCandidates (l : list RTCIceCandidateInit) (d : doc) : doc :=
  mkDoc (callerId d) (receiverId d) (callerName d) (receiverName d)
        (callerPhoto d) (receiverPhoto d) (status d) (offer d) (answer d)
        l (receiverCandidates d) (duration d).

Definition set_receiverCandidates (l : list RTCIceCandidateInit) (d : doc) : doc :=
  mkDoc (callerId d) (receiverId d) (callerName d) (receiverName d)
        (callerPhoto d) (receiverPhoto d) (status d) (offer d) (answer d)
        (callerCandidates d) l (duration d).
End CallData.

#[global] Instance CallData_Status_eq_dec : EqDecision CallData.Status.
Proof. solve_decision. Defined.

(** [CallState] of [CallStateContext.tsx]: the local, transient session. *)
Module CallState.
Inductive Status := connecting | connected | ringing.

Record t := mk {
  peerId : string;
  peerName : string;
  peerPhoto : string;
  duration : nat;
  isMuted : bool;
  status : Status
}.

(** [{ ...prev, status: s }] *)
Definition with_status (s : Status) (c : t) : t :=
  mk (peerId c) (peerName c) (peerPhoto c) (duration c) (isMuted c) s.

(** [{ ...prev, isMuted: !prev.isMuted }] *)
Definition flip_muted (c : t) : t :=
  mk (peerId c) (peerName c) (peerPhoto c) (duration c) (negb (isMuted c)) (status c).
End CallState.

#[global] Instance CallState_Status_eq_dec : EqDecision CallState.Status.
Proof. solve_decision. Defined.

(** [CallLog] of [types/index.ts].  [id] and [timestamp] are two readings of
    the wall clock ([Date.now()], [new Date()]) and are left out. *)
Module CallLog.
Inductive Status := completed | missed | declined | failed.
Inductive Kind := voice | video.

Record t := mk {
  callerId : string;
  receiverId : string;
  callerName : string;
  receiverName : string;
  callerPhoto : string;
  receiverPhoto : string;
  duration : nat;
  status : Status;
  type : Kind
}.
End CallLog.

#[global] Instance CallLog_Status_eq_dec : EqDecision CallLog.Status.
Proof. solve_decision. Defined.

(** The signed-in user's profile ([userProfile] of [AuthContext]). *)
Record UserProfile := mkProfile { name : string; photoURL : option string }.

(** [userProfile.photoURL || ''] *)
Definition photo_or_empty (p : UserProfile) : string :=
  match photoURL p with
  | Some u => if decide (u = "") then "" else u
  | None => ""
  end.

(** A captured microphone stream: one [enabled] flag per audio track. *)
Record MediaStream := mkStream { audioTracks : list bool }.

(** ** React state and render snapshots *)

Record Render := mkRender {
  currentUser : option string;              (* AuthContext: uid *)
  userProfile : option UserProfile;         (* AuthContext *)
  isInCall : bool;                          (* CallStateContext *)
  currentCall : option CallState.t;         (* CallStateContext *)
  callHistory : list CallLog.t;             (* CallStateContext *)
  incomingCall : option CallData.t;         (* IncomingCallContext *)
  callDuration : nat                        (* useCallTimer *)
}.

(** ** Objects living outside the component *)

Inductive ToastKind := t_error | t_success.
Definition Toast : Type := ToastKind * string.

(** A write issued to the [calls] collection. *)
Inductive StoreWrite :=
| W_create (callId : string)
| W_status (callId : string) (s : CallData.Status)
| W_candidates (callId : string) (isCallerCandidate : bool)
                (value : list RTCIceCandidateInit).

(** The closure passed to [CallService.subscribeToCall] by [initiateCall]:
    it captures [callId], the [peerConnection] and, through [endCall], the
    render that ran [initiateCall]. *)
Record CallListener := mkListener {
  l_render : Render;
  l_callId : string;
  l_peerConnection : nat
}.

(** The closure passed to [setTimeout(..., 60000)] by [initiateCall]. *)
Record RingTimeout := mkRingTimeout {
  t_render : Render;
  t_callId : string;
  t_unsubscribe : nat
}.

(** An [RTCPeerConnection] together with what [createPeerConnection]
    captured in its handlers: the two arguments [currentCallDocRef] and
    [isCallerRef] (plain values, not refs) and the render whose
    [handleConnectionStateChange] was passed in.  [pc_remoteCandidates] are
    the candidates applied with [RTCPeerConnection.addIceCandidate]. *)
Record PeerConnection := mkPc {
  pc_callDoc : option string;
  pc_isCaller : bool;
  pc_render : Render;
  pc_closed : bool;
  pc_tracks : nat;                          (* tracks added with addTrack *)
  pc_localDescription : option RTCSessionDescriptionInit;
  pc_remoteDescription : option RTCSessionDescriptionInit;
  pc_remoteCandidates : list RTCIceCandidateInit
}.

Record Refs := mkRefs {
  intervalRef : option nat;                 (* useCallTimer *)
  peerConnectionRef : option nat;           (* useWebRTC *)
  localStreamRef : option MediaStream;      (* useWebRTC *)
  remoteAudioSrc : option nat;              (* useWebRTC: remoteAudioRef.current.srcObject *)
  currentCallDocRef : option string;        (* CallContext *)
  callTimeoutRef : option nat;              (* CallContext *)
  isCallerRef : bool;                       (* CallContext *)
  callListenerRef : option nat              (* CallContext *)
}.

Record Runtime := mkRuntime {
  db : gmap string CallData.doc;            (* Firestore collection 'calls' *)
  writes : list StoreWrite;                 (* writes issued, oldest first *)
  intervals : list nat;                     (* live setInterval handles *)
  timeouts : gmap nat RingTimeout;          (* pending 60 s timeouts *)
  autoDeclines : gmap nat string;           (* pending 30 s timeouts: call id *)
  listeners : gmap nat CallListener;        (* attached onSnapshot listeners *)
  connections : gmap nat PeerConnection;    (* peer connections ever created *)
  micRequests : nat;                        (* calls of requestMicrophoneAccess *)
  toasts : list Toast;                      (* oldest first *)
  nextHandle : nat                          (* next timer / listener / object id;
                                               the browser's timer ids are positive,
                                               so a stored id is truthy *)
}.

Record World := mkWorld { ui : Render; refs : Refs; rt : Runtime }.

(** The values a function created by the current render closes over. *)
Definition render (w : World) : Render := ui w.

(** *** Field updates *)

Definition upd_ui (f : Render -> Render) (w : World) : World :=
  mkWorld (f (ui w)) (refs w) (rt w).
Definition upd_refs (f : Refs -> Refs) (w : World) : World :=
  mkWorld (ui w) (f (refs w)) (rt w).
Definition upd_rt (f : Runtime -> Runtime) (w : World) : World :=
  mkWorld (ui w) (refs w) (f (rt w)).

Definition setIsInCall (b : bool) : World -> World :=
  upd_ui (fun u => mkRender (currentUser u) (userProfile u) b (currentCall u)
                            (callHistory u) (incomingCall u) (callDuration u)).
Definition setCurrentCall (c : option CallState.t) : World -> World :=
  upd_ui (fun u => mkRender (currentUser u) (userProfile u) (isInCall u) c
                            (callHistory u) (incomingCall u) (callDuration u)).
(** [setCurrentCall(prev => prev ? f(prev) : null)] *)
Definition updCurrentCall (f : CallState.t -> CallState.t) : World -> World :=
  upd_ui (fun u => mkRender (currentUser u) (userProfile u) (isInCall u)
                            (f <$> currentCall u)
                            (callHistory u) (incomingCall u) (callDuration u)).
(** [addToCallHistory]: [setCallHistory(prev => [call, ...prev])] *)
Definition addToCallHistory (l : CallLog.t) : World -> World :=
  upd_ui (fun u => mkRender (currentUser u) (userProfile u) (isInCall u) (currentCall u)
                            (l :: callHistory u) (incomingCall u) (callDuration u)).
Definition setIncomingCall (c : option CallData.t) : World -> World :=
  upd_ui (fun u => mkRender (currentUser u) (userProfile u) (isInCall u) (currentCall u)
                            (callHistory u) c (callDuration u)).
Definition updCallDuration (f : nat -> nat) : World -> World :=
  upd_ui (fun u => mkRender (currentUser u) (userProfile u) (isInCall u) (currentCall u)
                            (callHistory u) (incomingCall u) (f (callDuration u))).

Definition set_intervalRef (v : option nat) : World -> World :=
  upd_refs (fun r => mkRefs v (peerConnectionRef r) (localStreamRef r) (remoteAudioSrc r)
                            (currentCallDocRef r) (callTimeoutRef r) (isCallerRef r)
                            (callListenerRef r)).
Definition set_peerConnectionRef (v : option nat) : World -> World :=
  upd_refs (fun r => mkRefs (intervalRef r) v (localStreamRef r) (remoteAudioSrc r)
                            (currentCallDocRef r) (callTimeoutRef r) (isCallerRef r)
                            (callListenerRef r)).
Definition set_localStreamRef (v : option MediaStream) : World -> World :=
  upd_refs (fun r => mkRefs (intervalRef r) (peerConnectionRef r) v (remoteAudioSrc r)
                            (currentCallDocRef r) (callTimeoutRef r) (isCallerRef r)
                            (callListenerRef r)).
Definition set_remoteAudioSrc (v : option nat) : World -> World :=
  upd_refs (fun r => mkRefs (intervalRef r) (peerConnectionRef r) (localStreamRef r) v
                            (currentCallDocRef r) (callTimeoutRef r) (isCallerRef r)
                            (callListenerRef r)).
Definition set_currentCallDocRef (v : option string) : World -> World :=
  upd_refs (fun r => mkRefs (intervalRef r) (peerConnectionRef r) (localStreamRef r)
                            (remoteAudioSrc r) v (callTimeoutRef r) (isCallerRef r)
                            (callListenerRef r)).
Definition set_callTimeoutRef (v : option nat) : World -> World :=
  upd_refs (fun r => mkRefs (intervalRef r) (peerConnectionRef r) (localStreamRef r)
                            (remoteAudioSrc r) (currentCallDocRef r) v (isCallerRef r)
                            (callListenerRef r)).
Definition set_isCallerRef (v : bool) : World -> World :=
  upd_refs (fun r => mkRefs (intervalRef r) (peerConnectionRef r) (localStreamRef r)
                            (remoteAudioSrc r) (currentCallDocRef r) (callTimeoutRef r) v
                            (callListenerRef r)).
Definition set_callListenerRef (v : option nat) : World -> World :=
  upd_refs (fun r => mkRefs (intervalRef r) (peerConnectionRef r) (localStreamRef r)
                            (remoteAudioSrc r) (currentCallDocRef r) (callTimeoutRef r)
                            (isCallerRef r) v).

Definition upd_db (f : gmap string CallData.doc -> gmap string CallData.doc) : World -> World :=
  upd_rt (fun e => mkRuntime (f (db e)) (writes e) (intervals e) (timeouts e) (autoDeclines e)
                             (listeners e) (connections e) (micRequests e) (toasts e)
                             (nextHandle e)).
Definition log_write (x : StoreWrite) : World -> World :=
  upd_rt (fun e => mkRuntime (db e) (writes e ++ [x]) (intervals e) (timeouts e)
                             (autoDeclines e) (listeners e) (connections e) (micRequests e)
                             (toasts e) (nextHandle e)).
Definition upd_intervals (f : list nat -> list nat) : World -> World :=
  upd_rt (fun e => mkRuntime (db e) (writes e) (f (intervals e)) (timeouts e) (autoDeclines e)
                             (listeners e) (connections e) (micRequests e) (toasts e)
                             (nextHandle e)).
Definition upd_timeouts (f : gmap nat RingTimeout -> gmap nat RingTimeout) : World -> World :=
  upd_rt (fun e => mkRuntime (db e) (writes e) (intervals e) (f (timeouts e)) (autoDeclines e)
                             (listeners e) (connections e) (micRequests e) (toasts e)
                             (nextHandle e)).
Definition upd_autoDeclines (f : gmap nat string -> gmap nat string) : World -> World :=
  upd_rt (fun e => mkRuntime (db e) (writes e) (intervals e) (timeouts e) (f (autoDeclines e))
                             (listeners e) (connections e) (micRequests e) (toasts e)
                             (nextHandle e)).
Definition upd_listeners (f : gmap nat CallListener -> gmap nat CallListener) : World -> World :=
  upd_rt (fun e => mkRuntime (db e) (writes e) (intervals e) (timeouts e) (autoDeclines e)
                             (f (listeners e)) (connections e) (micRequests e) (toasts e)
                             (nextHandle e)).
Definition upd_connections (f : gmap nat PeerConnection -> gmap nat PeerConnection)
  : World -> World :=
  upd_rt (fun e => mkRuntime (db e) (writes e) (intervals e) (timeouts e) (autoDeclines e)
                             (listeners e) (f (connections e)) (micRequests e) (toasts e)
                             (nextHandle e)).
Definition count_micRequest : World -> World :=
  upd_rt (fun e => mkRuntime (db e) (writes e) (intervals e) (timeouts e) (autoDeclines e)
                             (listeners e) (connections e) (S (micRequests e)) (toasts e)
                             (nextHandle e)).
Definition toast (k : ToastKind) (msg : string) : World -> World :=
  upd_rt (fun e => mkRuntime (db e) (writes e) (intervals e) (timeouts e) (autoDeclines e)
                             (listeners e) (connections e) (micRequests e)
                             (toasts e ++ [(k, msg)]) (nextHandle e)).
(** [toast.info(msg)].  react-hot-toast has no [toast.info]: the call throws
    a [TypeError] and nothing is shown.  Each of its three uses is the last
    statement of its function ([endCall], whose promise then rejects with
    nobody awaiting it, and [toggleMute]) or the last statement of a [try]
    whose [catch] only logs ([declineCall]); no statement is skipped by the
    exception, and the world stays as it was before the call. *)
Definition toast_info (msg : string) (w : World) : World := w.
(** A fresh handle for a timer, a listener or an object. *)
Definition alloc (w : World) : nat * World :=
  (nextHandle (rt w),
   upd_rt (fun e => mkRuntime (db e) (writes e) (intervals e) (timeouts e) (autoDeclines e)
                              (listeners e) (connections e) (micRequests e) (toasts e)
                              (S (nextHandle e))) w).

(** JavaScript truthiness of a [string | null]: the empty string is falsy. *)
Definition truthy (o : option string) : option string :=
  match o with
  | Some s => if decide (s = "") then None else Some s
  | None => None
  end.

(** ** [useCallTimer] *)

(** [startTimer]: [setCallDuration(0)], then a new interval whose handle
    overwrites [intervalRef.current]. *)
Definition startTimer (w : World) : World :=
  let w := updCallDuration (fun _ => 0) w in
  let '(h, w) := alloc w in
  let w := upd_intervals (fun l => l ++ [h]) w in
  set_intervalRef (Some h) w.

Definition clearInterval (h : nat) : World -> World :=
  upd_intervals (filter (fun x => x <> h)).

Definition stopTimer (w : World) : World :=
  match intervalRef (refs w) with
  | Some h => set_intervalRef None (clearInterval h w)
  | None => w
  end.

Definition resetTimer (w : World) : World :=
  updCallDuration (fun _ => 0) (stopTimer w).

(** One firing of interval [h]: [setCallDuration(prev => prev + 1)]. *)
Definition tick (h : nat) (w : World) : World :=
  if decide (h ∈ intervals (rt w)) then updCallDuration S w else w.

(** One second of wall-clock time: every live interval fires once. *)
Definition second (w : World) : World :=
  foldr tick w (intervals (rt w)).

(** ** [CallService] *)

(** [updateDoc(doc(db, 'calls', callId), fields)].  The boolean is [false]
    when the call throws (no such document). *)
Definition updateDoc (callId : string) (f : CallData.doc -> CallData.doc) (w : World)
  : bool * World :=
  match db (rt w) !! callId with
  | Some d => (true, upd_db (insert callId (f d)) w)
  | None => (false, w)
  end.

Module CallService.

(** [createCall]: [addDoc] with both candidate arrays empty.  [newId] is
    the id Firestore assigns, [None] when [addDoc] throws. *)
Definition createCall (newId : option string) (callData : CallData.doc) (w : World)
  : option string * World :=
  match newId with
  | Some callId =>
      let d := CallData.set_receiverCandidates [] (CallData.set_callerCandidates [] callData) in
      (Some callId, upd_db (insert callId d) (log_write (W_create callId) w))
  | None => (None, w)
  end.

Definition acceptCall (callId : string) (answer : RTCSessionDescriptionInit) (w : World)
  : bool * World :=
  updateDoc callId
    (fun d => CallData.set_answer (mkSdp (sdp_type answer) (sdp answer))
                (CallData.set_status CallData.accepted d))
    (log_write (W_status callId CallData.accepted) w).

Definition declineCall (callId : string) (w : World) : bool * World :=
  updateDoc callId (CallData.set_status CallData.declined)
    (log_write (W_status callId CallData.declined) w).

(** [duration] is always passed by the one caller, so always written. *)
Definition endCall (callId : string) (duration : nat) (w : World) : bool * World :=
  updateDoc callId
    (fun d => CallData.set_duration duration (CallData.set_status CallData.ended d))
    (log_write (W_status callId CallData.ended) w).

(** [subscribeToCall]: attaches a listener; the handle stands for the
    returned unsubscribe function. *)
Definition subscribeToCall (l : CallListener) (w : World) : nat * World :=
  let '(h, w) := alloc w in
  (h, upd_listeners (insert h l) w).

Definition unsubscribe (h : nat) : World -> World :=
  upd_listeners (delete h).

(** What [onSnapshot] hands to the callback of [subscribeToCall]. *)
Definition snapshot (callId : string) (w : World) : option CallData.t :=
  CallData.mk callId <$> db (rt w) !! callId.

End CallService.

(** ** [useWebRTC] *)

Inductive MediaError :=
| NotAllowedError | NotFoundError | NotReadableError
| OverconstrainedError | SecurityError | AbortError
| OtherError (message : string).

(** What the browser answers to one microphone request. *)
Record Browser := mkBrowser {
  isSecureContext : bool;
  protocolIsHttp : bool;
  hostnameIsLocalhost : bool;
  hasGetUserMedia : bool;
  getUserMedia : MediaError + MediaStream
}.

Definition checkMicrophonePermission (b : Browser) (w : World) : bool * World :=
  if negb (isSecureContext b) && negb (protocolIsHttp b) && negb (hostnameIsLocalhost b)
  then (false, toast t_error "Voice calls require a secure connection (HTTPS)" w)
  else if negb (hasGetUserMedia b)
  then (false, toast t_error "Your browser does not support voice calls" w)
  else (true, w).

Definition microphone_error_message (e : MediaError) : string :=
  match e with
  | NotAllowedError => "Microphone access denied. Please allow microphone access and try again."
  | NotFoundError => "No microphone found. Please connect a microphone and try again."
  | NotReadableError => "Microphone is being used by another application."
  | OverconstrainedError => "Microphone does not meet the required specifications."
  | SecurityError => "Microphone access blocked due to security restrictions."
  | AbortError => "Microphone access was aborted."
  | OtherError m =>
      "Could not access microphone: " +:+ (if decide (m = "") then "Unknown error" else m)
  end.

(** [requestMicrophoneAccess]: every failure is caught, reported by a toast
    and turned into [null]. *)
Definition requestMicrophoneAccess (b : Browser) (w : World) : option MediaStream * World :=
  let w := count_micRequest w in
  let '(hasPermission, w) := checkMicrophonePermission b w in
  if negb hasPermission then (None, w)
  else
    match getUserMedia b with
    | inr stream =>
        if decide (length (audioTracks stream) = 0)
        then (None, toast t_error
                      (microphone_error_message (OtherError "No audio tracks found in stream")) w)
        else (Some stream, w)
    | inl e => (None, toast t_error (microphone_error_message e) w)
    end.

(** [createPeerConnection(currentCallDocRef, isCallerRef, onTrack,
    onConnectionStateChange)]: the first two arguments are the VALUES the
    caller read from its refs; the handlers installed here keep them. *)
Definition createPeerConnection (currentCallDocRef : option string) (isCallerRef : bool)
    (r : Render) (w : World) : nat * World :=
  let '(h, w) := alloc w in
  let pc := mkPc currentCallDocRef isCallerRef r false 0 None None [] in
  (h, set_peerConnectionRef (Some h) (upd_connections (insert h pc) w)).

Definition upd_pc (h : nat) (f : PeerConnection -> PeerConnection) : World -> World :=
  upd_connections (alter f h).

Definition pc_addTracks (s : MediaStream) (pc : PeerConnection) : PeerConnection :=
  mkPc (pc_callDoc pc) (pc_isCaller pc) (pc_render pc) (pc_closed pc)
       (pc_tracks pc + length (audioTracks s)) (pc_localDescription pc) (pc_remoteDescription pc)
       (pc_remoteCandidates pc).
Definition pc_setLocalDescription (d : RTCSessionDescriptionInit) (pc : PeerConnection)
  : PeerConnection :=
  mkPc (pc_callDoc pc) (pc_isCaller pc) (pc_render pc) (pc_closed pc)
       (pc_tracks pc) (Some d) (pc_remoteDescription pc) (pc_remoteCandidates pc).
Definition pc_setRemoteDescription (d : RTCSessionDescriptionInit) (pc : PeerConnection)
  : PeerConnection :=
  mkPc (pc_callDoc pc) (pc_isCaller pc) (pc_render pc) (pc_closed pc)
       (pc_tracks pc) (pc_localDescription pc) (Some d) (pc_remoteCandidates pc).
Definition pc_close (pc : PeerConnection) : PeerConnection :=
  mkPc (pc_callDoc pc) (pc_isCaller pc) (pc_render pc) true
       (pc_tracks pc) (pc_localDescription pc) (pc_remoteDescription pc)
       (pc_remoteCandidates pc).

(** [currentData[candidateField]], with
    [candidateField = isCallerCandidate ? 'callerCandidates' : 'receiverCandidates'] *)
Definition candidateField (isCallerCandidate : bool) (d : CallData.doc)
  : list RTCIceCandidateInit :=
  if isCallerCandidate then CallData.callerCandidates d else CallData.receiverCandidates d.

(** [addIceCandidate], first half: [getDocs] of the record and the read of
    [currentData[candidateField] || []]; [None] when the snapshot is empty. *)
Definition readCandidates (callId : string) (isCallerCandidate : bool) (w : World)
  : option (list RTCIceCandidateInit) :=
  candidateField isCallerCandidate <$> db (rt w) !! callId.

(** [{ [candidateField]: value }] *)
Definition set_candidateField (isCallerCandidate : bool) (value : list RTCIceCandidateInit)
  : CallData.doc -> CallData.doc :=
  if isCallerCandidate then CallData.set_callerCandidates value
  else CallData.set_receiverCandidates value.

(** [addIceCandidate], second half, after the [await]: [updateDoc] of the one
    field with [[...existingCandidates, candidate]]; a failure is caught. *)
Definition writeCandidates (callId : string) (isCallerCandidate : bool)
    (existingCandidates : list RTCIceCandidateInit) (candidate : RTCIceCandidateInit)
    (w : World) : World :=
  let value := existingCandidates ++ [candidate] in
  snd (updateDoc callId (set_candidateField isCallerCandidate value)
         (log_write (W_candidates callId isCallerCandidate value) w)).

(** [addIceCandidate] run without anything in between its two halves. *)
Definition addIceCandidate (callId : string) (candidate : RTCIceCandidateInit)
    (isCallerCandidate : bool) (w : World) : World :=
  match readCandidates callId isCallerCandidate w with
  | Some existingCandidates =>
      writeCandidates callId isCallerCandidate existingCandidates candidate w
  | None => w
  end.

(** [peerConnection.onicecandidate] of connection [h]; [candidate] is
    [event.candidate] ([None] for the end-of-candidates event).  The handler
    is [async]: all it does itself is decide whether to call
    [addIceCandidate], and with which arguments
    ([currentCallDocRef], [event.candidate.toJSON()], [isCallerRef], the
    first and the last as [createPeerConnection] received them). *)
Definition onicecandidate_call (h : nat) (candidate : option RTCIceCandidateInit) (w : World)
  : option (string * RTCIceCandidateInit * bool) :=
  match connections (rt w) !! h with
  | Some pc =>
      match candidate, truthy (pc_callDoc pc) with
      | Some c, Some callId => Some (callId, c, pc_isCaller pc)
      | _, _ => None
      end
  | None => None
  end.

(** The handler run without anything in between the two halves of the
    [addIceCandidate] it calls. *)
Definition onicecandidate (h : nat) (candidate : option RTCIceCandidateInit) (w : World)
  : World :=
  match onicecandidate_call h candidate w with
  | Some (callId, c, isCaller) => addIceCandidate callId c isCaller w
  | None => w
  end.

Definition cleanup (w : World) : World :=
  let w := match peerConnectionRef (refs w) with
           | Some h => set_peerConnectionRef None (upd_pc h pc_close w)
           | None => w
           end in
  let w := match localStreamRef (refs w) with
           | Some _ => set_localStreamRef None w
           | None => w
           end in
  set_remoteAudioSrc None w.

(** ** [CallContext]: the call session state machine *)

Inductive RTCPeerConnectionState :=
| state_new | state_connecting | state_connected
| state_disconnected | state_failed | state_closed.

(** What the environment answers during one call setup. *)
Record Setup := mkSetup {
  browser : Browser;
  (* [createOffer] / [createAnswer] followed by [setLocalDescription];
     [None] when one of the two throws *)
  localDescription : option RTCSessionDescriptionInit;
  (* [acceptCall]: does [setRemoteDescription(offer)] succeed *)
  remoteDescriptionOk : bool;
  (* [initiateCall]: the id [addDoc] returns, [None] when it throws *)
  newCallId : option string
}.

Definition clearTimeout (h : nat) : World -> World := upd_timeouts (delete h).

(** The [callLog] object built by [endCall]; [isCaller] is
    [isCallerRef.current] at the time the object is built. *)
Definition callLog (isCaller : bool) (uid : string) (p : UserProfile) (c : CallState.t)
    (callDuration : nat) : CallLog.t :=
  CallLog.mk
    (if isCaller then uid else CallState.peerId c)
    (if isCaller then CallState.peerId c else uid)
    (if isCaller then name p else CallState.peerName c)
    (if isCaller then CallState.peerName c else name p)
    (if isCaller then photo_or_empty p else CallState.peerPhoto c)
    (if isCaller then CallState.peerPhoto c else photo_or_empty p)
    callDuration
    CallLog.completed
    CallLog.voice.

(** [endCall], from its start to the [await] of [CallService.endCall]
    (the write is issued; its failure is caught). *)
Definition endCall_begin (r : Render) (w : World) : World :=
  let w := match callTimeoutRef (refs w) with
           | Some h => set_callTimeoutRef None (clearTimeout h w)
           | None => w
           end in
  let w := stopTimer w in
  let w := match callListenerRef (refs w) with
           | Some h => set_callListenerRef None (CallService.unsubscribe h w)
           | None => w
           end in
  let w := cleanup w in
  match truthy (currentCallDocRef (refs w)) with
  | Some callId => snd (CallService.endCall callId (callDuration r) w)
  | None => w
  end.

(** [endCall], from "Save to call history" to the end. *)
Definition endCall_resume (r : Render) (w : World) : World :=
  let w := match currentCall r, currentUser r, userProfile r with
           | Some c, Some uid, Some p =>
               addToCallHistory (callLog (isCallerRef (refs w)) uid p c (callDuration r)) w
           | _, _, _ => w
           end in
  let w := setIsInCall false w in
  let w := setCurrentCall None w in
  let w := resetTimer w in
  let w := set_currentCallDocRef None w in
  let w := set_isCallerRef false w in
  toast_info "Call ended" w.

(** Does [endCall] reach its [await]?  Only when there is a record to mark. *)
Definition endCall_suspends (w : World) : bool :=
  bool_decide (is_Some (truthy (currentCallDocRef (refs w)))).

(** [endCall(); rest]: the call is never awaited, so when [endCall] suspends
    the statements after it run before its second half; when it does not, it
    has run to its end before they start.  Nothing else is interleaved. *)
Definition endCall_then (r : Render) (rest : World -> World) (w : World) : World :=
  if endCall_suspends w
  then endCall_resume r (rest (endCall_begin r w))
  else rest (endCall_resume r (endCall_begin r w)).

(** [endCall()] as the last statement of its caller. *)
Definition endCall (r : Render) (w : World) : World :=
  endCall_then r (fun w => w) w.

Definition handleConnectionStateChange (r : Render) (state : RTCPeerConnectionState)
    (w : World) : World :=
  match state with
  | state_connected =>
      setIsInCall true (updCurrentCall (CallState.with_status CallState.connected) w)
  | state_failed => endCall r (toast t_error "Call connection failed" w)
  | _ => w
  end.

(** [peerConnection.onconnectionstatechange] of connection [h]. *)
Definition onconnectionstatechange (h : nat) (state : RTCPeerConnectionState) (w : World)
  : World :=
  match connections (rt w) !! h with
  | Some pc => handleConnectionStateChange (pc_render pc) state w
  | None => w
  end.

(** [handleTrackReceived]: [stream] is [event.streams[0]], [playOk] tells
    whether [remoteAudioRef.current.play()] resolves. *)
Definition handleTrackReceived (stream : option nat) (playOk : bool) (w : World) : World :=
  match stream with
  | Some s =>
      let w := set_remoteAudioSrc (Some s) w in
      if playOk
      then toast t_success "Call connected"
             (setIsInCall true (updCurrentCall (CallState.with_status CallState.connected) w))
      else w
  | None => w
  end.

(** The callback [initiateCall] passes to [CallService.subscribeToCall];
    [h] is its own unsubscribe handle, [remoteOk] tells whether
    [peerConnection.setRemoteDescription(answer)] succeeds. *)
Definition onCallSnapshot (h : nat) (l : CallListener) (callData : option CallData.t)
    (remoteOk : bool) (w : World) : World :=
  match callData with
  | None => w
  | Some cd =>
      match CallData.status (CallData.data cd), CallData.answer (CallData.data cd) with
      | CallData.declined, _ =>
          endCall_then (l_render l) (CallService.unsubscribe h)
            (toast t_error "Call declined" w)
      | CallData.accepted, Some answer =>
          if remoteOk
          then
            let w := upd_pc (l_peerConnection l) (pc_setRemoteDescription answer) w in
            let w := startTimer w in
            updCurrentCall (CallState.with_status CallState.connected) w
          else endCall (l_render l) (toast t_error "Failed to establish connection" w)
      | CallData.ended, _ =>
          endCall_then (l_render l) (CallService.unsubscribe h) w
      | _, _ => w
      end
  end.

(** Firestore delivers a snapshot to listener [h], if still attached. *)
Definition deliver (h : nat) (callData : option CallData.t) (remoteOk : bool) (w : World)
  : World :=
  match listeners (rt w) !! h with
  | Some l => onCallSnapshot h l callData remoteOk w
  | None => w
  end.

(** [currentCall?.status === 'ringing'] *)
Definition status_is_ringing (c : option CallState.t) : bool :=
  match c with
  | Some c => bool_decide (CallState.status c = CallState.ringing)
  | None => false
  end.

(** The callback [initiateCall] passes to [setTimeout(..., 60000)]. *)
Definition onRingTimeout (t : RingTimeout) (w : World) : World :=
  if bool_decide (currentCallDocRef (refs w) = Some (t_callId t))
     && status_is_ringing (currentCall (t_render t))
  then endCall_then (t_render t)
         (fun w => CallService.unsubscribe (t_unsubscribe t)
                     (toast t_error "Call timeout - no answer" w)) w
  else w.

(** The 60 s timer [h] expires, if it was not cleared. *)
Definition fireRingTimeout (h : nat) (w : World) : World :=
  match timeouts (rt w) !! h with
  | Some t => onRingTimeout t (upd_timeouts (delete h) w)
  | None => w
  end.

Definition initiateCall (r : Render) (peerId peerName peerPhoto : string) (x : Setup)
    (w : World) : World :=
  match currentUser r, userProfile r with
  | Some uid, Some profile =>
      if isInCall r || bool_decide (is_Some (currentCall r))
      then toast t_error "Already in a call" w
      else
        let w := set_isCallerRef true w in
        let w := setCurrentCall
                   (Some (CallState.mk peerId peerName peerPhoto 0 false CallState.connecting))
                   w in
        let '(stream, w) := requestMicrophoneAccess (browser x) w in
        match stream with
        | None => setCurrentCall None w
        | Some stream =>
            let w := set_localStreamRef (Some stream) w in
            let '(peerConnection, w) :=
              createPeerConnection (currentCallDocRef (refs w)) (isCallerRef (refs w)) r w in
            let w := upd_pc peerConnection (pc_addTracks stream) w in
            let failed w := endCall r (toast t_error "Failed to initiate call" w) in
            match localDescription x with
            | None => failed w
            | Some offer =>
                let w := upd_pc peerConnection (pc_setLocalDescription offer) w in
                let '(created, w) :=
                  CallService.createCall (newCallId x)
                    (CallData.mkDoc uid peerId (name profile) peerName
                       (photo_or_empty profile) peerPhoto CallData.ringing
                       (Some (mkSdp (sdp_type offer) (sdp offer))) None [] [] None) w in
                match created with
                | None => failed w
                | Some callId =>
                    let w := set_currentCallDocRef (Some callId) w in
                    let w := updCurrentCall (CallState.with_status CallState.ringing) w in
                    let w := toast t_success ("Calling " +:+ peerName +:+ "...") w in
                    let '(unsubscribe, w) :=
                      CallService.subscribeToCall (mkListener r callId peerConnection) w in
                    let w := set_callListenerRef (Some unsubscribe) w in
                    let '(timer, w) := alloc w in
                    let w := upd_timeouts (insert timer (mkRingTimeout r callId unsubscribe)) w in
                    set_callTimeoutRef (Some timer) w
                end
            end
        end
  | _, _ => toast t_error "Please log in to make calls" w
  end.

(** [declineCall], from its start to the [await] of
    [CallService.declineCall]: the write is issued, and its outcome is what
    the second half will see; [None] when no call is surfaced. *)
Definition declineCall_begin (r : Render) (w : World) : option (bool * World) :=
  match incomingCall r with
  | Some ic => Some (CallService.declineCall (CallData.id ic) w)
  | None => None
  end.

(** [declineCall], after the [await]; a failed write goes to the [catch],
    which only logs. *)
Definition declineCall_resume (ok : bool) (w : World) : World :=
  if ok then toast_info "Call declined" (setIncomingCall None w) else w.

(** [declineCall] run without anything in between its two halves. *)
Definition declineCall (r : Render) (w : World) : World :=
  match declineCall_begin r w with
  | Some (ok, w) => declineCall_resume ok w
  | None => w
  end.

Definition acceptCall (r : Render) (x : Setup) (w : World) : World :=
  match incomingCall r, currentUser r with
  | Some ic, Some _ =>
      let w := set_isCallerRef false w in
      let w := setCurrentCall
                 (Some (CallState.mk (CallData.callerId (CallData.data ic))
                          (CallData.callerName (CallData.data ic))
                          (CallData.callerPhoto (CallData.data ic))
                          0 false CallState.connecting)) w in
      let '(stream, w) := requestMicrophoneAccess (browser x) w in
      match stream with
      | None => declineCall r w
      | Some stream =>
          let w := set_localStreamRef (Some stream) w in
          let '(peerConnection, w) :=
            createPeerConnection (Some (CallData.id ic)) (isCallerRef (refs w)) r w in
          let w := upd_pc peerConnection (pc_addTracks stream) w in
          let failed w := declineCall r (toast t_error "Failed to accept call" w) in
          match CallData.offer (CallData.data ic), remoteDescriptionOk x with
          | Some offer, true =>
              let w := upd_pc peerConnection (pc_setRemoteDescription offer) w in
              match localDescription x with
              | None => failed w
              | Some answer =>
                  let w := upd_pc peerConnection (pc_setLocalDescription answer) w in
                  let '(ok, w) := CallService.acceptCall (CallData.id ic) answer w in
                  if ok
                  then
                    let w := set_currentCallDocRef (Some (CallData.id ic)) w in
                    let w := setIncomingCall None w in
                    let w := startTimer w in
                    toast t_success "Call accepted" w
                  else failed w
              end
          | _, _ => failed w
          end
      end
  | _, _ => w
  end.

Definition toggleMute (r : Render) (w : World) : World :=
  match localStreamRef (refs w) with
  | Some s =>
      let w := set_localStreamRef (Some (mkStream (negb <$> audioTracks s))) w in
      let w := updCurrentCall CallState.flip_muted w in
      toast_info
        (match currentCall r with
         | Some c => if CallState.isMuted c then "Microphone unmuted" else "Microphone muted"
         | None => "Microphone muted"
         end) w
  | None => w
  end.

(** ** [IncomingCallProvider]: the incoming-call watcher *)

(** The callback of [CallService.subscribeToIncomingCalls].  The effect that
    installs it depends on [isInCall] and [currentCall], so the callback reads
    their current values.  The desktop notification is left out. *)
Definition onIncomingCalls (calls : list CallData.t) (w : World) : World :=
  match calls with
  | latestCall :: _ =>
      if negb (isInCall (ui w)) && negb (bool_decide (is_Some (currentCall (ui w))))
      then
        let w := setIncomingCall (Some latestCall) w in
        let '(timer, w) := alloc w in
        upd_autoDeclines (insert timer (CallData.id latestCall)) w
      else w
  | [] => w
  end.

(** The 30 s timer [h] expires (nothing ever clears it):
    [setIncomingCall(current => current?.id === latestCall.id ? (decline, null) : current)]. *)
Definition fireAutoDecline (h : nat) (w : World) : World :=
  match autoDeclines (rt w) !! h with
  | Some latestId =>
      let w := upd_autoDeclines (delete h) w in
      match incomingCall (ui w) with
      | Some current =>
          if bool_decide (CallData.id current = latestId)
          then setIncomingCall None (snd (CallService.declineCall latestId w))
          else w
      | None => w
      end
  | None => w
  end.

(** ** States of the session state machine *)

(** Logged in, as [initiateCall] checks it. *)
Definition logged_in (r : Render) : Prop :=
  is_Some (currentUser r) /\ is_Some (userProfile r).

(** The Idle state of the session state machine. *)
Definition idle (r : Render) : Prop :=
  isInCall r = false /\ currentCall r = None.

(** ** A concrete call, used to exercise the theorems *)

Module Scenario.

Definition start (uid : string) (p : UserProfile) : World :=
  mkWorld (mkRender (Some uid) (Some p) false None [] None 0)
          (mkRefs None None None None None None false None)
          (mkRuntime ∅ [] [] ∅ ∅ ∅ ∅ 0 [] 1).

Definition granted : Browser := mkBrowser true false false true (inr (mkStream [true])).
Definition denied : Browser := mkBrowser true false false true (inl NotAllowedError).

Definition offer : RTCSessionDescriptionInit := mkSdp "offer" "v=0 alice".
Definition answer : RTCSessionDescriptionInit := mkSdp "answer" "v=0 bob".

Definition setup : Setup := mkSetup granted (Some offer) true (Some "call1").
Definition setup_denied : Setup := mkSetup denied (Some offer) true (Some "call1").

(** Alice, signed in and idle. *)
Definition alice0 : World := start "alice" (mkProfile "Alice" None).

(** Alice calls Bob: the record [call1] is ringing; the peer connection
    got handle 1, the snapshot listener 2, the 60 s timer 3. *)
Definition alice_ringing : World :=
  initiateCall (render alice0) "bob" "Bob" "" setup alice0.

(** Bob's client accepts: its write, as [CallService.acceptCall] makes it. *)
Definition alice_bob_accepted : World :=
  snd (CallService.acceptCall "call1" answer alice_ringing).

(** Bob's client declines. *)
Definition alice_bob_declined : World :=
  snd (CallService.declineCall "call1" alice_ringing).

End Scenario.

(** A second call arrives while the first is surfaced. *)
Module Busy.
Import Scenario.

(** Carol rings Alice: her record [call0] and the snapshot Alice's watcher
    receives for it. *)
Definition carol_doc : CallData.doc :=
  CallData.mkDoc "carol" "alice" "Carol" "Alice" "" "" CallData.ringing
    (Some (mkSdp "offer" "v=0 carol")) None [] [] None.

(** Alice is idle, so the watcher surfaces Carol's call. *)
Definition alice_incoming : World :=
  onIncomingCalls [CallData.mk "call0" carol_doc]
    (snd (CallService.createCall (Some "call0") carol_doc alice0)).

(** With the prompt still showing, Alice calls Bob; [initiateCall] does not
    look at [incomingCall]. *)
Definition alice_busy : World :=
  initiateCall (render alice_incoming) "bob" "Bob" "" setup alice_incoming.

(** Then she presses Accept on the prompt. *)
Definition alice_accepts : World :=
  acceptCall (render alice_busy) setup alice_busy.
End Busy.

(** The call is accepted and the record keeps changing. *)
Module Accepted.
Import Scenario.

(** The first snapshot with [status = accepted] and the answer reaches
    Alice's listener (handle 2); the transport takes the answer. *)
Definition connected : World :=
  deliver 2 (CallService.snapshot "call1" alice_bob_accepted) true alice_bob_accepted.

(** Five seconds of conversation. *)
Definition talking : World := Nat.iter 5 second connected.

(** Bob's session discovers a candidate and appends it to
    [receiverCandidates]: the record changes, status and answer do not. *)
Definition candidate_pushed : World := addIceCandidate "call1" "cand-b1" false talking.

(** The listener receives the record again; [remoteOk] is what
    [setRemoteDescription] answers to the repeated answer. *)
Definition redelivered (remoteOk : bool) : World :=
  deliver 2 (CallService.snapshot "call1" candidate_pushed) remoteOk candidate_pushed.
End Accepted.

(** The callee never answers and the caller gives up first. *)
Module Watcher.
Import Scenario.

Definition bob0 : World := start "bob" (mkProfile "Bob" None).

(** Alice's record, as her [initiateCall] creates it. *)
Definition alice_doc : CallData.doc :=
  CallData.mkDoc "alice" "bob" "Alice" "Bob" "" "" CallData.ringing
    (Some offer) None [] [] None.

Definition bob_rung : World :=
  snd (CallService.createCall (Some "call1") alice_doc bob0).

(** Bob is idle: the watcher surfaces the call and arms the 30 s timer
    (handle 1). *)
Definition bob_prompted : World :=
  onIncomingCalls [CallData.mk "call1" alice_doc] bob_rung.

(** Alice hangs up: her [endCall] marks the record [ended]; the set of
    ringing calls addressed to Bob becomes empty and the watcher is told. *)
Definition caller_hung_up : World :=
  onIncomingCalls [] (snd (CallService.endCall "call1" 0 bob_prompted)).

(** The 30 s timer expires. *)
Definition auto_declined : World := fireAutoDecline 1 caller_hung_up.
End Watcher.

(** The user hangs up a connected call. *)
Module HangUp.
(** The transport reports [connected]: [isInCall] is set and the call
    screen with its hang-up button is shown. *)
Definition in_call : World :=
  onconnectionstatechange 1 state_connected Accepted.talking.

(** The render the hang-up button belongs to. *)
Definition r : Render := render in_call.

(** The button is pressed twice; the second press arrives while the first
    [endCall] is waiting for its store write. *)
Definition double_press : World :=
  endCall_resume r (endCall_resume r (endCall_begin r (endCall_begin r in_call))).

(** [endCall] of one render called twice, the second call after the first
    has run to its end. *)
Definition same_closure_twice : World := endCall r (endCall r in_call).

(** A single [endCall]. *)
Definition once : World := endCall r in_call.
End HangUp.

(** ** The order on [CallRecord.status] *)

(** One step forward along [ringing -> {accepted | declined} -> ended] or
    [ringing -> ended]. *)
Definition forward (s s' : CallData.Status) : bool :=
  match s, s' with
  | CallData.ringing, (CallData.accepted | CallData.declined | CallData.ended) => true
  | (CallData.accepted | CallData.declined), CallData.ended => true
  | _, _ => false
  end.

(** The three writes of [CallService] that set [status]. *)
Inductive StatusWrite :=
| write_accept (answer : RTCSessionDescriptionInit)
| write_decline
| write_end (duration : nat).

Definition written_status (o : StatusWrite) : CallData.Status :=
  match o with
  | write_accept _ => CallData.accepted
  | write_decline => CallData.declined
  | write_end _ => CallData.ended
  end.

Definition run_write (callId : string) (o : StatusWrite) (w : World) : bool * World :=
  match o with
  | write_accept answer => CallService.acceptCall callId answer w
  | write_decline => CallService.declineCall callId w
  | write_end duration => CallService.endCall callId duration w
  end.

(** The receiver's side of the call of [Scenario]. *)
Module Receiver.
Import Scenario.

(** Bob accepts the surfaced call: his peer connection gets handle 2. *)
Definition bob_accepted : World :=
  acceptCall (render Watcher.bob_prompted)
    (mkSetup granted (Some answer) true None) Watcher.bob_prompted.

(** Bob's session discovers a candidate. *)
Definition bob_candidate : World := onicecandidate 2 (Some "cand-b1") bob_accepted.

(** Two candidates discovered one right after the other: both handlers
    have read the record before either writes. *)
Definition bob_two_candidates_interleaved : World :=
  let existing := default [] (readCandidates "call1" false bob_accepted) in
  writeCandidates "call1" false existing "cand-b2"
    (writeCandidates "call1" false existing "cand-b1" bob_accepted).
End Receiver.

(** The caller's side: what its session discovers and what it is sent. *)
Module Caller.
(** Alice's session (peer connection 1) discovers a candidate while ringing. *)
Definition alice_candidate : World :=
  onicecandidate 1 (Some "cand-a1") Scenario.alice_ringing.
End Caller.

(** Peer connection [h] reports the candidates it discovers to record
    [callDoc], into the caller's or the receiver's array. *)
Definition reports_to (h : nat) (callDoc : option string) (isCaller : bool) (w : World)
  : Prop :=
  exists pc, connections (rt w) !! h = Some pc /\
             pc_callDoc pc = callDoc /\ pc_isCaller pc = isCaller.


(** ** Callers of the call operations *)

(** [x || ''] for an optional string. *)
Definition or_empty (o : option string) : string :=
  match truthy o with Some s => s | None => "" end.

(** [handleCall] of [ContactList.tsx]: the component's own check on
    [isInCall], then [initiateCall]. *)
Definition handleCall (r : Render) (contactId contactName : string)
    (contactPhotoURL : option string) (x : Setup) (w : World) : World :=
  if isInCall r then toast t_error "Already in a call" w
  else initiateCall r contactId contactName (or_empty contactPhotoURL) x w.

(** [handleVoiceCall] of [ChatWindow.tsx].  The text is that of [handleCall],
    but [ChatWindow.tsx] does not import [toast]: with [isInCall] set,
    [toast.error(...)] throws a [ReferenceError], the handler ends there and
    nothing is shown. *)
Definition handleVoiceCall (r : Render) (otherId otherName : string)
    (otherPhotoURL : option string) (x : Setup) (w : World) : World :=
  if isInCall r then w
  else initiateCall r otherId otherName (or_empty otherPhotoURL) x w.

(** [isIncoming] of [CallHistory.tsx]: [call.receiverId === currentUser?.uid]. *)
Definition isIncoming (r : Render) (call : CallLog.t) : bool :=
  bool_decide (currentUser r = Some (CallLog.receiverId call)).

(** The contact [handleCallBack] dials: id, name and photo. *)
Definition callBackContact (r : Render) (call : CallLog.t) : string * string * string :=
  if isIncoming r call
  then (CallLog.callerId call, CallLog.callerName call, CallLog.callerPhoto call)
  else (CallLog.receiverId call, CallLog.receiverName call, CallLog.receiverPhoto call).

(** [handleCallBack] of [CallHistory.tsx]. *)
Definition handleCallBack (r : Render) (call : CallLog.t) (x : Setup) (w : World) : World :=
  let '(contactId, contactName, contactPhoto) := callBackContact r call in
  initiateCall r contactId contactName contactPhoto x w.

(** ** The two collection queries of [CallService]

    [calls] is the collection as Firestore orders it ([orderBy('timestamp',
    'desc')]); the code adds the selection. *)

(** [subscribeToIncomingCalls]: [where('receiverId', '==', userId)],
    [where('status', '==', 'ringing')]. *)
Definition incomingCallsQuery (userId : string) (calls : list CallData.t) : list CallData.t :=
  filter (fun c => CallData.receiverId (CallData.data c) = userId /\
                   CallData.status (CallData.data c) = CallData.ringing) calls.

(** [subscribeToCallHistory]: the [filter] on [callerId] and [receiverId]. *)
Definition callHistoryQuery (userId : string) (calls : list CallData.t) : list CallData.t :=
  filter (fun c => CallData.callerId (CallData.data c) = userId \/
                   CallData.receiverId (CallData.data c) = userId) calls.

(** The effect of [IncomingCallProvider]: without a user no subscription;
    otherwise the watcher's callback receives the query result. *)
Definition onIncomingSnapshot (calls : list CallData.t) (w : World) : World :=
  match currentUser (ui w) with
  | Some uid => onIncomingCalls (incomingCallsQuery uid calls) w
  | None => w
  end.

(** ** Display of durations *)

(** [s.padStart(n, '0')] *)
Definition padStart0 (n : nat) (s : string) : string :=
  String.concat "" (replicate (n - String.length s) "0") +:+ s.

(** [formatDuration] of [CallHistory.tsx]:
    [`${minutes}:${remainingSeconds.toString().padStart(2, '0')}`]. *)
Definition formatDuration (seconds : nat) : string :=
  pretty (seconds / 60) +:+ ":" +:+ padStart0 2 (pretty (seconds mod 60)).

(** The value of a two-digit field, for reading a formatted field back. *)
Definition digit_value (c : Ascii.ascii) : nat := Ascii.nat_of_ascii c - 48.
Definition field_value (s : string) : nat :=
  match s with
  | String a (String b EmptyString) => 10 * digit_value a + digit_value b
  | _ => 0
  end.


(** ** Microphone acquisition *)

(** The page may ask for the microphone: secure context, or plain http, or
    localhost; and the browser has [getUserMedia]. *)
Definition may_ask (b : Browser) : Prop :=
  (isSecureContext b = true \/ protocolIsHttp b = true \/ hostnameIsLocalhost b = true) /\
  hasGetUserMedia b = true.


(** ** [declineCall] and the 30-second timer *)

(** The 30 s timer [h] expires while [declineCall] awaits its write: the first
    half, the timer's callback, then the second half. *)
Definition declineCall_timer_between (h : nat) (r : Render) (w : World) : World :=
  match declineCall_begin r w with
  | Some (ok, w) => declineCall_resume ok (fireAutoDecline h w)
  | None => fireAutoDecline h w
  end.
(** ** Proof tools *)

(** Projections of field updates, for goals about a few nested operations. *)
Ltac proj :=
  cbn [ui refs rt
       currentUser userProfile isInCall currentCall callHistory incomingCall callDuration
       intervalRef peerConnectionRef localStreamRef remoteAudioSrc currentCallDocRef
       callTimeoutRef isCallerRef callListenerRef
       db writes intervals timeouts autoDeclines listeners connections micRequests toasts
       nextHandle fst snd] in *.

Ltac unfold_ops :=
  unfold CallService.endCall, CallService.declineCall, CallService.acceptCall,
    CallService.unsubscribe, updateDoc, upd_pc,
    setIsInCall, setCurrentCall, updCurrentCall, addToCallHistory, setIncomingCall,
    updCallDuration, set_intervalRef, set_peerConnectionRef, set_localStreamRef,
    set_remoteAudioSrc, set_currentCallDocRef, set_callTimeoutRef, set_isCallerRef,
    set_callListenerRef, upd_db, log_write, upd_intervals, upd_timeouts, upd_autoDeclines,
    upd_listeners, upd_connections, count_micRequest, toast, toast_info,
    upd_ui, upd_refs, upd_rt in *.

(** Reading one field of the world after a chain of updates. *)
Ltac look :=
  cbn [ui refs rt
       currentUser userProfile isInCall currentCall callHistory incomingCall callDuration
       intervalRef peerConnectionRef localStreamRef remoteAudioSrc currentCallDocRef
       callTimeoutRef isCallerRef callListenerRef
       db writes intervals timeouts autoDeclines listeners connections micRequests toasts
       nextHandle fst snd
       upd_ui upd_refs upd_rt upd_pc
       setIsInCall setCurrentCall updCurrentCall addToCallHistory setIncomingCall
       updCallDuration set_intervalRef set_peerConnectionRef set_localStreamRef
       set_remoteAudioSrc set_currentCallDocRef set_callTimeoutRef set_isCallerRef
       set_callListenerRef upd_db log_write upd_intervals upd_timeouts upd_autoDeclines
       upd_listeners upd_connections count_micRequest toast toast_info alloc startTimer
       createPeerConnection CallService.createCall CallService.subscribeToCall] in *.

(** Evaluation of a whole operation on a world whose refs are known to be
    set or not: call by value, so that a world threaded through a dozen
    updates is computed once. *)
Ltac world_cbv :=
  cbv [endCall endCall_then endCall_suspends endCall_begin endCall_resume cleanup
       resetTimer stopTimer startTimer clearInterval clearTimeout alloc
       CallService.endCall CallService.declineCall CallService.acceptCall
       CallService.unsubscribe updateDoc upd_pc truthy
       setIsInCall setCurrentCall updCurrentCall addToCallHistory setIncomingCall
       updCallDuration set_intervalRef set_peerConnectionRef set_localStreamRef
       set_remoteAudioSrc set_currentCallDocRef set_callTimeoutRef set_isCallerRef
       set_callListenerRef upd_db log_write upd_intervals upd_timeouts upd_autoDeclines
       upd_listeners upd_connections count_micRequest toast toast_info
       upd_ui upd_refs upd_rt
       ui refs rt
       currentUser userProfile isInCall currentCall callHistory incomingCall callDuration
       intervalRef peerConnectionRef localStreamRef remoteAudioSrc currentCallDocRef
       callTimeoutRef isCallerRef callListenerRef
       db writes intervals timeouts autoDeclines listeners connections micRequests toasts
       nextHandle fst snd] in *.

Ltac destruct_world w :=
  let u := fresh "u" in
  let i := fresh "iref" in let p := fresh "pref" in let s := fresh "sref" in
  let a := fresh "aref" in let d := fresh "dref" in let t := fresh "tref" in
  let c := fresh "cref" in let l := fresh "lref" in
  destruct w as [u [i p s a d t c l] []]; destruct i, p, s, d, t, l.

Ltac case_stuck :=
  repeat match goal with
         | |- context [match decide (?a = ?b) with _ => _ end] => destruct (decide (a = b))
         | |- context [match ?m !! ?k with _ => _ end] => destruct (m !! k)
         end.

(** ** Facts about the operations *)

(** [endCall] as a last statement is its two halves one after the other. *)
Lemma endCall_unfold r w : endCall r w = endCall_resume r (endCall_begin r w).
Proof. unfold endCall, endCall_then. by destruct (endCall_suspends w). Qed.

(** Whether the microphone is granted depends on the browser alone. *)
Lemma requestMicrophoneAccess_stream b w1 w2 :
  fst (requestMicrophoneAccess b w1) = fst (requestMicrophoneAccess b w2).
Proof.
  unfold requestMicrophoneAccess, checkMicrophonePermission.
  destruct (negb (isSecureContext b) && negb (protocolIsHttp b) && negb (hostnameIsLocalhost b));
    [done|].
  destruct (negb (hasGetUserMedia b)); [done|]. simpl.
  destruct (getUserMedia b) as [e|s]; [done|].
  by destruct (decide (length (audioTracks s) = 0)).
Qed.

(** A microphone request touches nothing but the request counter and the toasts. *)
Lemma requestMicrophoneAccess_frame b w :
  let w' := snd (requestMicrophoneAccess b w) in
  ui w' = ui w /\ refs w' = refs w /\ db (rt w') = db (rt w) /\
  writes (rt w') = writes (rt w) /\ connections (rt w') = connections (rt w) /\
  listeners (rt w') = listeners (rt w) /\ timeouts (rt w') = timeouts (rt w) /\
  intervals (rt w') = intervals (rt w) /\ nextHandle (rt w') = nextHandle (rt w).
Proof.
  unfold requestMicrophoneAccess, checkMicrophonePermission.
  destruct (negb (isSecureContext b) && negb (protocolIsHttp b) && negb (hostnameIsLocalhost b));
    [by simpl|].
  destruct (negb (hasGetUserMedia b)); [by simpl|]. simpl.
  destruct (getUserMedia b) as [e|s]; [by simpl|].
  by destruct (decide (length (audioTracks s) = 0)).
Qed.

Lemma requestMicrophoneAccess_counts b w :
  micRequests (rt (snd (requestMicrophoneAccess b w))) = S (micRequests (rt w)).
Proof.
  unfold requestMicrophoneAccess, checkMicrophonePermission.
  destruct (negb (isSecureContext b) && negb (protocolIsHttp b) && negb (hostnameIsLocalhost b));
    [by simpl|].
  destruct (negb (hasGetUserMedia b)); [by simpl|]. simpl.
  destruct (getUserMedia b) as [e|s]; [by simpl|].
  by destruct (decide (length (audioTracks s) = 0)).
Qed.

(** With permission denied [requestMicrophoneAccess] returns null, whatever
    else the browser says. *)
Lemma microphone_denied_returns_null b w :
  getUserMedia b = inl NotAllowedError -> fst (requestMicrophoneAccess b w) = None.
Proof.
  intros H. unfold requestMicrophoneAccess, checkMicrophonePermission.
  destruct (negb (isSecureContext b) && negb (protocolIsHttp b) && negb (hostnameIsLocalhost b));
    [done|].
  destruct (negb (hasGetUserMedia b)); [done|]. simpl. by rewrite H.
Qed.

(** The concrete call after [initiateCall]. *)
Example alice_ringing_state :
  currentCall (ui Scenario.alice_ringing)
    = Some (CallState.mk "bob" "Bob" "" 0 false CallState.ringing) /\
  isInCall (ui Scenario.alice_ringing) = false /\
  currentCallDocRef (refs Scenario.alice_ringing) = Some "call1" /\
  peerConnectionRef (refs Scenario.alice_ringing) = Some 1 /\
  callListenerRef (refs Scenario.alice_ringing) = Some 2 /\
  callTimeoutRef (refs Scenario.alice_ringing) = Some 3 /\
  CallData.status <$> db (rt Scenario.alice_ringing) !! "call1" = Some CallData.ringing /\
  writes (rt Scenario.alice_ringing) = [W_create "call1"].
Proof. repeat apply conj; vm_compute; reflexivity. Qed.

(** *** What [endCall] does *)

(** The first half of [endCall], field by field: the React state and
    [isCallerRef] are left alone, the timer, listener and transport refs are
    cleared, the record of the current call is marked [ended]. *)
Lemma endCall_begin_spec r w :
  let w' := endCall_begin r w in
  ui w' = ui w /\
  refs w' = mkRefs None None None None (currentCallDocRef (refs w)) None
                   (isCallerRef (refs w)) None /\
  db (rt w') =
    match truthy (currentCallDocRef (refs w)) with
    | Some callId =>
        match db (rt w) !! callId with
        | Some d => <[callId := CallData.set_duration (callDuration r)
                                  (CallData.set_status CallData.ended d)]> (db (rt w))
        | None => db (rt w)
        end
    | None => db (rt w)
    end /\
  writes (rt w') =
    writes (rt w) ++ match truthy (currentCallDocRef (refs w)) with
                     | Some callId => [W_status callId CallData.ended]
                     | None => []
                     end /\
  listeners (rt w') =
    match callListenerRef (refs w) with
    | Some h => delete h (listeners (rt w))
    | None => listeners (rt w)
    end /\
  timeouts (rt w') =
    match callTimeoutRef (refs w) with
    | Some h => delete h (timeouts (rt w))
    | None => timeouts (rt w)
    end /\
  intervals (rt w') =
    match intervalRef (refs w) with
    | Some h => filter (fun x => x <> h) (intervals (rt w))
    | None => intervals (rt w)
    end /\
  connections (rt w') =
    match peerConnectionRef (refs w) with
    | Some h => alter pc_close h (connections (rt w))
    | None => connections (rt w)
    end /\
  toasts (rt w') = toasts (rt w) /\ nextHandle (rt w') = nextHandle (rt w) /\
  micRequests (rt w') = micRequests (rt w) /\ autoDeclines (rt w') = autoDeclines (rt w).
Proof.
  destruct r; destruct_world w; world_cbv; case_stuck; rewrite ?app_nil_r;
    repeat apply conj; reflexivity.
Qed.

(** The second half, field by field: at most one [CallLog] is added, built
    from the render's [currentCall]; the state is reset. *)
Lemma endCall_resume_spec r w :
  let w' := endCall_resume r w in
  ui w' = mkRender (currentUser (ui w)) (userProfile (ui w)) false None
            (match currentCall r, currentUser r, userProfile r with
             | Some c, Some uid, Some p =>
                 callLog (isCallerRef (refs w)) uid p c (callDuration r) :: callHistory (ui w)
             | _, _, _ => callHistory (ui w)
             end)
            (incomingCall (ui w)) 0 /\
  refs w' = mkRefs None (peerConnectionRef (refs w)) (localStreamRef (refs w))
                   (remoteAudioSrc (refs w)) None (callTimeoutRef (refs w)) false
                   (callListenerRef (refs w)) /\
  db (rt w') = db (rt w) /\ writes (rt w') = writes (rt w) /\
  listeners (rt w') = listeners (rt w) /\ timeouts (rt w') = timeouts (rt w) /\
  connections (rt w') = connections (rt w) /\
  intervals (rt w') =
    match intervalRef (refs w) with
    | Some h => filter (fun x => x <> h) (intervals (rt w))
    | None => intervals (rt w)
    end /\
  toasts (rt w') = toasts (rt w) /\
  nextHandle (rt w') = nextHandle (rt w) /\
  micRequests (rt w') = micRequests (rt w) /\ autoDeclines (rt w') = autoDeclines (rt w).
Proof.
  destruct r as [cu up ? cc ? ? ?]; destruct cu, up, cc;
    destruct w as [[] [i ? ? ? ? ? ? ?] []]; destruct i; world_cbv;
    repeat apply conj; reflexivity.
Qed.

(** The [CallLog] that [endCall] appends: one entry, or none when the render
    it closes over has no current call (or no user). *)
Lemma endCall_history r w :
  callHistory (ui (endCall r w)) =
    match currentCall r, currentUser r, userProfile r with
    | Some c, Some uid, Some p =>
        callLog (isCallerRef (refs w)) uid p c (callDuration r) :: callHistory (ui w)
    | _, _, _ => callHistory (ui w)
    end.
Proof.
  rewrite endCall_unfold.
  destruct (endCall_resume_spec r (endCall_begin r w)) as (-> & _).
  destruct (endCall_begin_spec r w) as (-> & -> & _). reflexivity.
Qed.

(** Whatever way the call ended, the entry says [completed]. *)
Lemma endCall_logs_completed r w :
  callHistory (ui (endCall r w)) = callHistory (ui w) \/
  exists log, callHistory (ui (endCall r w)) = log :: callHistory (ui w) /\
              CallLog.status log = CallLog.completed.
Proof.
  rewrite endCall_history. repeat case_match; eauto.
Qed.

(** After [endCall] the client is Idle and every ref is cleared. *)
Lemma endCall_idle r w :
  let w' := endCall r w in
  idle (ui w') /\ callDuration (ui w') = 0 /\
  refs w' = mkRefs None None None None None None false None.
Proof.
  cbv zeta. rewrite endCall_unfold.
  destruct (endCall_resume_spec r (endCall_begin r w)) as (-> & -> & _).
  destruct (endCall_begin_spec r w) as (_ & -> & _). by repeat apply conj.
Qed.

(** [endCall] leaves in the store what its first half wrote. *)
Lemma endCall_store r w :
  db (rt (endCall r w)) = db (rt (endCall_begin r w)) /\
  writes (rt (endCall r w)) = writes (rt (endCall_begin r w)) /\
  connections (rt (endCall r w)) = connections (rt (endCall_begin r w)) /\
  listeners (rt (endCall r w)) = listeners (rt (endCall_begin r w)).
Proof.
  rewrite endCall_unfold.
  destruct (endCall_resume_spec r (endCall_begin r w))
    as (_ & _ & -> & -> & -> & _ & -> & _).
  done.
Qed.

(** [endCall] marks the record of the current call [ended]. *)
Lemma endCall_marks_record_ended r w callId d :
  currentCallDocRef (refs w) = Some callId -> callId <> "" ->
  db (rt w) !! callId = Some d ->
  db (rt (endCall r w)) !! callId
    = Some (CallData.set_duration (callDuration r) (CallData.set_status CallData.ended d)).
Proof.
  intros Href Hne Hdb. destruct (endCall_store r w) as (-> & _).
  destruct (endCall_begin_spec r w) as (_ & _ & -> & _).
  rewrite Href. unfold truthy. rewrite decide_False by done.
  rewrite Hdb. apply lookup_insert_eq.
Qed.

(** [endCall(); unsubscribe()]: the statements after the call do not change
    what [endCall] does to the state, the refs and the store. *)
Lemma endCall_then_unsubscribe r h w :
  let w' := endCall_then r (CallService.unsubscribe h) w in
  ui w' = ui (endCall r w) /\ refs w' = refs (endCall r w) /\
  db (rt w') = db (rt (endCall r w)) /\ writes (rt w') = writes (rt (endCall r w)) /\
  connections (rt w') = connections (rt (endCall r w)) /\
  listeners (rt w') = delete h (listeners (rt (endCall r w))).
Proof.
  cbv zeta. rewrite endCall_unfold. unfold endCall_then.
  destruct (endCall_suspends w); [|by repeat apply conj].
  set (w1 := endCall_begin r w).
  destruct (endCall_resume_spec r (CallService.unsubscribe h w1))
    as (-> & -> & -> & -> & -> & _ & -> & _).
  destruct (endCall_resume_spec r w1)
    as (-> & -> & -> & -> & -> & _ & -> & _).
  by repeat apply conj.
Qed.

(** [endCall] shows nothing: its [toast.info] fails.  Nor do the statements
    after it in [endCall(); unsubscribe()]. *)
Lemma endCall_toasts r w : toasts (rt (endCall r w)) = toasts (rt w).
Proof.
  rewrite endCall_unfold.
  destruct (endCall_resume_spec r (endCall_begin r w))
    as (_ & _ & _ & _ & _ & _ & _ & _ & -> & _).
  by destruct (endCall_begin_spec r w) as (_ & _ & _ & _ & _ & _ & _ & _ & -> & _).
Qed.

Lemma endCall_then_unsubscribe_toasts r h w :
  toasts (rt (endCall_then r (CallService.unsubscribe h) w)) = toasts (rt (endCall r w)).
Proof.
  rewrite endCall_unfold. unfold endCall_then.
  destruct (endCall_suspends w); [|done].
  destruct (endCall_resume_spec r (CallService.unsubscribe h (endCall_begin r w)))
    as (_ & _ & _ & _ & _ & _ & _ & _ & -> & _).
  by destruct (endCall_resume_spec r (endCall_begin r w))
    as (_ & _ & _ & _ & _ & _ & _ & _ & -> & _).
Qed.

(** [endCall] registers no timer: it can only clear the current one. *)
Lemma endCall_timeouts r w h t :
  timeouts (rt (endCall r w)) !! h = Some t -> timeouts (rt w) !! h = Some t.
Proof.
  rewrite endCall_unfold.
  destruct (endCall_resume_spec r (endCall_begin r w))
    as (_ & _ & _ & _ & _ & -> & _).
  destruct (endCall_begin_spec r w) as (_ & _ & _ & _ & _ & -> & _).
  destruct (callTimeoutRef (refs w)) as [h'|]; [|done].
  rewrite lookup_delete_Some. tauto.
Qed.

(** *** What [addIceCandidate] writes *)

Lemma readCandidates_eq callId isCaller w :
  readCandidates callId isCaller w = candidateField isCaller <$> db (rt w) !! callId.
Proof. reflexivity. Qed.

(** What one write of [addIceCandidate] leaves in the record. *)
Lemma writeCandidates_db callId isCaller existing c d w :
  db (rt w) !! callId = Some d ->
  db (rt (writeCandidates callId isCaller existing c w)) !! callId
    = Some (set_candidateField isCaller (existing ++ [c]) d).
Proof.
  intros Hd. unfold writeCandidates. unfold_ops. proj. rewrite Hd. proj.
  by rewrite lookup_insert_eq.
Qed.

Lemma writeCandidates_read callId isCaller existing c d w :
  db (rt w) !! callId = Some d ->
  readCandidates callId isCaller (writeCandidates callId isCaller existing c w)
    = Some (existing ++ [c]).
Proof.
  intros Hd. rewrite readCandidates_eq, (writeCandidates_db _ _ _ _ d) by done.
  by destruct isCaller.
Qed.

(** The write touches the one field: the other party's array is kept. *)
Lemma writeCandidates_other_field callId isCaller existing c d w :
  db (rt w) !! callId = Some d ->
  readCandidates callId (negb isCaller) (writeCandidates callId isCaller existing c w)
    = Some (candidateField (negb isCaller) d).
Proof.
  intros Hd. rewrite readCandidates_eq, (writeCandidates_db _ _ _ _ d) by done.
  by destruct isCaller.
Qed.

(** *** Peer connections and microphone requests across the operations *)





Lemma updateDoc_micRequests callId f w :
  micRequests (rt (snd (updateDoc callId f w))) = micRequests (rt w).
Proof. unfold updateDoc. by destruct (db (rt w) !! callId). Qed.

Lemma declineCall_micRequests r w : micRequests (rt (declineCall r w)) = micRequests (rt w).
Proof.
  unfold declineCall, declineCall_begin, declineCall_resume.
  destruct (incomingCall r) as [ic|]; [|done].
  unfold CallService.declineCall.
  pose proof (updateDoc_micRequests (CallData.id ic) (CallData.set_status CallData.declined)
                (log_write (W_status (CallData.id ic) CallData.declined) w)) as H.
  destruct (updateDoc _ _ _) as [[] w']; simpl in H; look; by rewrite ?H.
Qed.




(** ** C1: exchange of connectivity candidates *)

(** The handler of a session wired to a record calls [addIceCandidate] for
    that record and for its own side's array. *)
Lemma onicecandidate_call_wired h callId isCaller c w :
  reports_to h (Some callId) isCaller w -> callId <> "" ->
  onicecandidate_call h (Some c) w = Some (callId, c, isCaller).
Proof.
  intros (pc & Hpc & Hdoc & Hic) Hne. unfold onicecandidate_call.
  rewrite Hpc, Hdoc, Hic. unfold truthy. by rewrite decide_False.
Qed.


(** With nothing in between, a session wired to a record appends what it
    discovers to its side's array of that record. *)
Lemma onicecandidate_appends h callId isCaller c d w :
  reports_to h (Some callId) isCaller w -> callId <> "" ->
  db (rt w) !! callId = Some d ->
  db (rt (onicecandidate h (Some c) w)) !! callId
    = Some (set_candidateField isCaller (candidateField isCaller d ++ [c]) d).
Proof.
  intros Hr Hne Hd. unfold onicecandidate.
  rewrite (onicecandidate_call_wired h callId isCaller c w Hr Hne).
  unfold addIceCandidate. rewrite readCandidates_eq, Hd. simpl.
  by apply writeCandidates_db.
Qed.

(** A session created without a record id, or asked to report the end of
    discovery, writes nothing. *)
Lemma onicecandidate_without_record h c w :
  reports_to h None true w \/ reports_to h None false w \/ c = None ->
  onicecandidate h c w = w.
Proof.
  unfold onicecandidate, onicecandidate_call.
  intros [(pc & -> & -> & _)|[(pc & -> & -> & _)| ->]]; try by destruct c.
  by destruct (connections (rt w) !! h).
Qed.

(** The slip on the caller's side, at a concrete call: [initiateCall] hands
    [createPeerConnection] the value of [currentCallDocRef.current] read
    before the record exists, that is null, and the handler keeps that value;
    so what Alice's session discovers is never written to [callerCandidates]. *)
Example caller_candidate_is_not_pushed :
  reports_to 1 None true Scenario.alice_ringing /\
  currentCallDocRef (refs Scenario.alice_ringing) = Some "call1" /\
  Caller.alice_candidate = Scenario.alice_ringing /\
  CallData.callerCandidates <$> db (rt Caller.alice_candidate) !! "call1" = Some [].
Proof.
  assert (reports_to 1 None true Scenario.alice_ringing) as H.
  { eexists. repeat apply conj; [vm_compute; reflexivity|reflexivity|reflexivity]. }
  split; [exact H|]. split; [vm_compute; reflexivity|].
  split; [|vm_compute; reflexivity].
  unfold Caller.alice_candidate. apply onicecandidate_without_record. by left.
Qed.




(** ** C2: the 60-second ring timeout *)

(** The timeout callback reads [currentCall] of the render that ran
    [initiateCall]; when that value is null the callback does nothing,
    whenever it fires. *)
Lemma onRingTimeout_inert t w :
  currentCall (t_render t) = None -> onRingTimeout t w = w.
Proof.
  intros H. unfold onRingTimeout. rewrite H. simpl. by rewrite andb_false_r.
Qed.

(** [initiateCall] passes its guard only with [currentCall] null. *)
Lemma initiateCall_guard r :
  isInCall r || bool_decide (is_Some (currentCall r)) = false -> currentCall r = None.
Proof.
  intros H. apply orb_false_elim in H as [_ H]. apply bool_decide_eq_false in H.
  destruct (currentCall r); [|done]. destruct H. eauto.
Qed.

(** Every 60 s timer that [initiateCall] registers captures a render whose
    [currentCall] is null: the guard let the call through. *)
Lemma initiateCall_timeouts r peerId peerName peerPhoto x w h t :
  timeouts (rt (initiateCall r peerId peerName peerPhoto x w)) !! h = Some t ->
  timeouts (rt w) !! h = Some t \/ currentCall (t_render t) = None.
Proof.
  unfold initiateCall.
  destruct (currentUser r) as [uid|]; [|by left].
  destruct (userProfile r) as [profile|]; [|by left].
  destruct (isInCall r || bool_decide (is_Some (currentCall r))) eqn:Hg; [by left|].
  apply initiateCall_guard in Hg.
  set (w1 := setCurrentCall _ _).
  pose proof (requestMicrophoneAccess_frame (browser x) w1) as Hf.
  destruct (requestMicrophoneAccess (browser x) w1) as [[stream|] w2]; proj;
    destruct Hf as (_ & _ & _ & _ & _ & _ & Hti & _);
    [|look; rewrite Hti; subst w1; look; by left].
  assert (timeouts (rt w2) = timeouts (rt w)) as Hti' by (by rewrite Hti).
  unfold createPeerConnection, alloc. proj.
  destruct (localDescription x) as [offer|].
  - destruct (newCallId x) as [callId|]; look.
    + intros [[_ Ht]|[_ H]]%lookup_insert_Some; [right; by rewrite <- Ht|].
      left. by rewrite <- Hti'.
    + intros H%endCall_timeouts. left. look. by rewrite <- Hti'.
  - intros H%endCall_timeouts. left. look. by rewrite <- Hti'.
Qed.

(** So the callback of a timer that [initiateCall] has just registered does
    nothing, in whatever world it fires. *)
Lemma ring_timeout_of_initiateCall_is_inert r peerId peerName peerPhoto x w h t :
  timeouts (rt w) !! h = None ->
  timeouts (rt (initiateCall r peerId peerName peerPhoto x w)) !! h = Some t ->
  forall w', onRingTimeout t w' = w'.
Proof.
  intros Hnew Ht w'. apply initiateCall_timeouts in Ht as [Ht|Ht]; [congruence|].
  by apply onRingTimeout_inert.
Qed.

(** C2 (the code at the failing input).  Alice calls Bob, nobody answers and
    no update arrives; the 60 s timer (handle 3) is pending and expires.
    The callback tests [currentCall?.status === 'ringing'] on the value its
    render captured, which is null, so nothing happens: the session is still
    [ringing], the record is still [ringing], no write was issued and the
    listener stays attached. *)
Theorem ring_timeout_does_not_end_call :
  let w := Scenario.alice_ringing in
  let w' := fireRingTimeout 3 w in
  (* the timer initiateCall registered, and the session it should end *)
  callTimeoutRef (refs w) = Some 3 /\
  t_callId <$> timeouts (rt w) !! 3 = Some "call1" /\
  CallState.status <$> currentCall (ui w) = Some CallState.ringing /\
  (* what the captured render says *)
  (currentCall ∘ t_render) <$> timeouts (rt w) !! 3 = Some None /\
  (* after expiry *)
  ui w' = ui w /\
  CallState.status <$> currentCall (ui w') = Some CallState.ringing /\
  currentCallDocRef (refs w') = Some "call1" /\
  CallData.status <$> db (rt w') !! "call1" = Some CallData.ringing /\
  writes (rt w') = writes (rt w) /\
  is_Some (listeners (rt w') !! 2).
Proof.
  repeat apply conj; try (vm_compute; reflexivity).
  vm_compute. eauto.
Qed.

(** ** C3: duplicate [accepted] snapshots *)

(** C3 (the code at the failing input).  The caller's listener receives two
    snapshots with [status = accepted] and the same answer (the second one is
    caused by the receiver appending a candidate).  The handler has no memory
    of the first: it applies the answer again and calls [startTimer] again.
    If the transport takes the repeated answer, the elapsed duration falls
    from 5 back to 0 and a second interval runs beside the first, whose handle
    is lost, so that one second later the duration is 2.  If the transport
    refuses it, the handler ends the call.  In both cases the duration is
    reset by the repeated delivery. *)
Theorem duplicate_accepted_snapshot_restarts_timer :
  (* the two snapshots agree on status and answer *)
  (CallData.status ∘ CallData.data <$> CallService.snapshot "call1" Scenario.alice_bob_accepted
     = Some CallData.accepted /\
   CallData.status ∘ CallData.data <$> CallService.snapshot "call1" Accepted.candidate_pushed
     = Some CallData.accepted /\
   CallData.answer ∘ CallData.data <$> CallService.snapshot "call1" Accepted.candidate_pushed
     = CallData.answer ∘ CallData.data <$> CallService.snapshot "call1" Scenario.alice_bob_accepted) /\
  (* after the first one and five seconds *)
  (CallState.status <$> currentCall (ui Accepted.talking) = Some CallState.connected /\
   callDuration (ui Accepted.talking) = 5 /\
   intervals (rt Accepted.talking) = [4]) /\
  (* the repeated one, accepted by the transport *)
  (callDuration (ui (Accepted.redelivered true)) = 0 /\
   intervals (rt (Accepted.redelivered true)) = [4; 5] /\
   intervalRef (refs (Accepted.redelivered true)) = Some 5 /\
   callDuration (ui (second (Accepted.redelivered true))) = 2) /\
  (* the repeated one, refused by the transport *)
  (callDuration (ui (Accepted.redelivered false)) = 0 /\
   currentCall (ui (Accepted.redelivered false)) = None /\
   CallData.status <$> db (rt (Accepted.redelivered false)) !! "call1" = Some CallData.ended).
Proof. repeat apply conj; vm_compute; reflexivity. Qed.

(** The defect in [startTimer] itself: called while an interval runs, it
    leaves that interval alive and forgets its handle. *)
Lemma startTimer_twice w :
  let w2 := startTimer (startTimer w) in
  intervals (rt w2) = intervals (rt w) ++ [nextHandle (rt w); S (nextHandle (rt w))] /\
  intervalRef (refs w2) = Some (S (nextHandle (rt w))) /\
  intervals (rt (stopTimer w2))
    = filter (fun x => x <> S (nextHandle (rt w))) (intervals (rt w)) ++ [nextHandle (rt w)].
Proof.
  destruct w as [u r e]. simpl. split; [by rewrite <- app_assoc|]. split; [done|].
  unfold stopTimer. simpl. rewrite <- app_assoc. rewrite !filter_app. f_equal.
  rewrite (filter_cons_True (fun x => x <> S (nextHandle e))); [|simpl; lia].
  rewrite filter_nil. simpl.
  rewrite (filter_cons_False (fun x => x <> S (nextHandle e))); [|tauto].
  by rewrite filter_nil.
Qed.

(** The handler is the same for every delivery: whatever the state of the
    session, an [accepted] snapshot with an answer that the transport takes
    zeroes the duration and adds an interval. *)
Lemma accepted_snapshot_always_restarts_timer h l cd answer w :
  CallData.status (CallData.data cd) = CallData.accepted ->
  CallData.answer (CallData.data cd) = Some answer ->
  let w' := onCallSnapshot h l (Some cd) true w in
  callDuration (ui w') = 0 /\
  intervals (rt w') = intervals (rt w) ++ [nextHandle (rt w)] /\
  intervalRef (refs w') = Some (nextHandle (rt w)).
Proof.
  intros Hs Ha. unfold onCallSnapshot. rewrite Hs, Ha.
  unfold startTimer, alloc, upd_pc, updCurrentCall, updCallDuration, set_intervalRef,
    upd_intervals, upd_connections, upd_ui, upd_refs, upd_rt.
  by cbn.
Qed.

(** ** C4: the caller sees [declined] *)

(** C4 (counterexample).  Bob declines Alice's call and Alice's listener
    receives the record with [status = declined].  The handler ends the call,
    but no [CallLog] with terminal status [declined] is appended: here the
    history is left as it was. *)
Lemma declined_call_is_not_logged_as_declined :
  let w := Scenario.alice_bob_declined in
  let w' := deliver 2 (CallService.snapshot "call1" w) true w in
  CallData.status ∘ CallData.data <$> CallService.snapshot "call1" w = Some CallData.declined /\
  is_Some (listeners (rt w) !! 2) /\
  currentCall (ui w') = None /\
  ~ (exists log, callHistory (ui w') = log :: callHistory (ui w) /\
                 CallLog.status log = CallLog.declined).
Proof.
  repeat apply conj; try (vm_compute; reflexivity).
  - vm_compute. eauto.
  - intros (log & H & _). vm_compute in H. discriminate H.
Qed.

(** C4 (amended).  When the caller's listener receives the record with
    [status = declined], the handler shows "Call declined" (an error toast,
    the only toast of this path), runs [endCall] and detaches itself: the
    client is Idle again, the refs are cleared, the record of the current
    call is marked [ended].  [endCall] has no notion of an outcome: a
    [CallLog] it appends has terminal status [completed], never [declined],
    [missed] or [failed]. *)
Theorem declined_snapshot_ends_call
    (h : nat) (l : CallListener) (cd : CallData.t) (remoteOk : bool) (w : World) :
  CallData.status (CallData.data cd) = CallData.declined ->
  let w' := onCallSnapshot h l (Some cd) remoteOk w in
  toasts (rt w') = (toasts (rt w) ++ [(t_error, "Call declined")]) /\
  idle (ui w') /\
  refs w' = mkRefs None None None None None None false None /\
  listeners (rt w') !! h = None /\
  (forall callId d,
      currentCallDocRef (refs w) = Some callId -> callId <> "" ->
      db (rt w) !! callId = Some d ->
      CallData.status <$> db (rt w') !! callId = Some CallData.ended) /\
  (callHistory (ui w') = callHistory (ui w) \/
   exists log, callHistory (ui w') = log :: callHistory (ui w) /\
               CallLog.status log = CallLog.completed).
Proof.
  intros Hst. unfold onCallSnapshot. rewrite Hst.
  set (w0 := toast t_error "Call declined" w).
  destruct (endCall_then_unsubscribe (l_render l) h w0) as (Hui & Href & Hdb & _ & _ & Hli).
  destruct (endCall_idle (l_render l) w0) as (Hidle & _ & Hrefs).
  cbv zeta. rewrite Hui, Href, Hdb, Hli, endCall_then_unsubscribe_toasts, endCall_toasts.
  split; [done|].
  split; [exact Hidle|]. split; [exact Hrefs|]. split; [apply lookup_delete_eq|].
  split.
  - intros callId d Hc Hne Hd.
    rewrite (endCall_marks_record_ended (l_render l) w0 callId d Hc Hne Hd). done.
  - exact (endCall_logs_completed (l_render l) w0).
Qed.

Lemma declined_snapshot_ends_call_witness :
  let w := Scenario.alice_bob_declined in
  let cd := CallData.mk "call1"
              (CallData.set_status CallData.declined Watcher.alice_doc) in
  let w' := onCallSnapshot 2 (mkListener (render Scenario.alice0) "call1" 1) (Some cd) true w in
  CallData.status (CallData.data cd) = CallData.declined /\
  toasts (rt w') = (toasts (rt w) ++ [(t_error, "Call declined")]) /\
  idle (ui w') /\
  refs w' = mkRefs None None None None None None false None /\
  listeners (rt w') !! 2 = None /\
  (forall callId d,
      currentCallDocRef (refs w) = Some callId -> callId <> "" ->
      db (rt w) !! callId = Some d ->
      CallData.status <$> db (rt w') !! callId = Some CallData.ended) /\
  (callHistory (ui w') = callHistory (ui w) \/
   exists log, callHistory (ui w') = log :: callHistory (ui w) /\
               CallLog.status log = CallLog.completed).
Proof.
  split; [reflexivity|].
  exact (declined_snapshot_ends_call 2 (mkListener (render Scenario.alice0) "call1" 1)
           (CallData.mk "call1" (CallData.set_status CallData.declined Watcher.alice_doc))
           true Scenario.alice_bob_declined eq_refl).
Defined.

(** ** C5: the order of [CallRecord.status] *)

(** C5 (counterexample).  Alice rings Bob and hangs up before he reacts: her
    [endCall] marks the record [ended].  Bob's prompt is not withdrawn (the
    watcher only ever surfaces calls), so his 30 s timer still finds the call
    surfaced and writes [declined]: the record goes from [ended] back to
    [declined]. *)
Lemma auto_decline_overwrites_ended :
  CallData.id <$> incomingCall (ui Watcher.caller_hung_up) = Some "call1" /\
  autoDeclines (rt Watcher.caller_hung_up) !! 1 = Some "call1" /\
  CallData.status <$> db (rt Watcher.caller_hung_up) !! "call1" = Some CallData.ended /\
  CallData.status <$> db (rt Watcher.auto_declined) !! "call1" = Some CallData.declined /\
  forward CallData.ended CallData.declined = false.
Proof. repeat apply conj; vm_compute; reflexivity. Qed.

(** C5 (amended).  The status writes of [CallService] are unconditional: on
    an existing record [acceptCall] sets [accepted], [declineCall] sets
    [declined] and [endCall] sets [ended], whatever the status was, and no
    other record is touched.  So a write moves the status forward along
    [ringing -> {accepted | declined} -> ended] (or [ringing -> ended]) when the
    record is still [ringing], and [endCall] does so from every status but
    [ended], where it leaves [ended].  Nothing protects an [ended] record
    from a later decline or accept; the receiver's 30-second auto-decline
    writes [declined] to the call it finds surfaced without reading the
    record. *)
Theorem status_writes_are_unconditional
    (callId : string) (o : StatusWrite) (d : CallData.doc) (w : World) :
  db (rt w) !! callId = Some d ->
  let w' := snd (run_write callId o w) in
  CallData.status <$> db (rt w') !! callId = Some (written_status o) /\
  (forall other, other <> callId -> db (rt w') !! other = db (rt w) !! other) /\
  (CallData.status d = CallData.ringing ->
   forward (CallData.status d) (written_status o) = true) /\
  (CallData.status d <> CallData.ended -> written_status o = CallData.ended ->
   forward (CallData.status d) (written_status o) = true) /\
  (forall h current,
      autoDeclines (rt w) !! h = Some callId ->
      incomingCall (ui w) = Some current -> CallData.id current = callId ->
      CallData.status <$> db (rt (fireAutoDecline h w)) !! callId = Some CallData.declined).
Proof.
  intros Hd. repeat apply conj.
  - destruct o; unfold run_write; unfold_ops; proj; rewrite Hd; proj;
      by rewrite lookup_insert_eq.
  - intros other Hne.
    destruct o; unfold run_write; unfold_ops; proj; rewrite Hd; proj;
      by rewrite lookup_insert_ne.
  - intros ->. by destruct o.
  - intros Hs Ho. destruct o; try discriminate Ho. simpl.
    by destruct (CallData.status d).
  - intros h current Hh Hic Hid. unfold fireAutoDecline. rewrite Hh.
    unfold_ops. proj. rewrite Hic, Hid.
    rewrite bool_decide_eq_true_2 by done. rewrite Hd. proj.
    by rewrite lookup_insert_eq.
Qed.

Lemma status_writes_are_unconditional_witness :
  let w := Watcher.caller_hung_up in
  let d := CallData.set_duration 0 (CallData.set_status CallData.ended Watcher.alice_doc) in
  let w' := snd (run_write "call1" write_decline w) in
  db (rt w) !! "call1" = Some d /\
  CallData.status <$> db (rt w') !! "call1" = Some (written_status write_decline) /\
  (forall other, other <> "call1" -> db (rt w') !! other = db (rt w) !! other) /\
  (CallData.status d = CallData.ringing ->
   forward (CallData.status d) (written_status write_decline) = true) /\
  (CallData.status d <> CallData.ended -> written_status write_decline = CallData.ended ->
   forward (CallData.status d) (written_status write_decline) = true) /\
  (forall h current,
      autoDeclines (rt w) !! h = Some "call1" ->
      incomingCall (ui w) = Some current -> CallData.id current = "call1" ->
      CallData.status <$> db (rt (fireAutoDecline h w)) !! "call1" = Some CallData.declined).
Proof.
  assert (db (rt Watcher.caller_hung_up) !! "call1"
          = Some (CallData.set_duration 0
                    (CallData.set_status CallData.ended Watcher.alice_doc))) as Hd
    by (vm_compute; reflexivity).
  split; [exact Hd|].
  exact (status_writes_are_unconditional "call1" write_decline _ Watcher.caller_hung_up Hd).
Defined.

(** ** C6: [initiateCall] while already in a call *)

(** C6.  When [initiateCall] is invoked while the client is not Idle (a
    current session exists or [isInCall] is set), the attempt is refused with
    the toast "Already in a call" and nothing else happens: the React state
    (so the existing session), every ref, the store and its write log, the
    peer connections, the microphone, the listeners and the timers are left
    as they were. *)
Theorem initiateCall_already_in_call
    (w : World) (peerId peerName peerPhoto : string) (x : Setup) :
  logged_in (render w) ->
  isInCall (render w) = true \/ is_Some (currentCall (render w)) ->
  let w' := initiateCall (render w) peerId peerName peerPhoto x w in
  toasts (rt w') = (toasts (rt w) ++ [(t_error, "Already in a call")]) /\
  ui w' = ui w /\ refs w' = refs w /\
  db (rt w') = db (rt w) /\ writes (rt w') = writes (rt w) /\
  connections (rt w') = connections (rt w) /\
  micRequests (rt w') = micRequests (rt w) /\
  listeners (rt w') = listeners (rt w) /\ timeouts (rt w') = timeouts (rt w) /\
  intervals (rt w') = intervals (rt w).
Proof.
  intros [[uid Hu] [p Hp]] Hbusy. unfold initiateCall. rewrite Hu, Hp.
  assert (isInCall (render w) || bool_decide (is_Some (currentCall (render w))) = true) as ->.
  { destruct Hbusy as [->|Hc]; [done|]. rewrite (bool_decide_eq_true_2 _ Hc). apply orb_true_r. }
  by simpl.
Qed.

Lemma initiateCall_already_in_call_witness :
  let w := Scenario.alice_ringing in
  let w' := initiateCall (render w) "carol" "Carol" "" Scenario.setup w in
  logged_in (render w) /\
  (isInCall (render w) = true \/ is_Some (currentCall (render w))) /\
  toasts (rt w') = (toasts (rt w) ++ [(t_error, "Already in a call")]) /\
  ui w' = ui w /\ refs w' = refs w /\
  db (rt w') = db (rt w) /\ writes (rt w') = writes (rt w) /\
  connections (rt w') = connections (rt w) /\
  micRequests (rt w') = micRequests (rt w) /\
  listeners (rt w') = listeners (rt w) /\ timeouts (rt w') = timeouts (rt w) /\
  intervals (rt w') = intervals (rt w).
Proof.
  assert (logged_in (render Scenario.alice_ringing)) as Hl
    by (split; vm_compute; eauto).
  assert (isInCall (render Scenario.alice_ringing) = true \/
          is_Some (currentCall (render Scenario.alice_ringing))) as Hb
    by (right; vm_compute; eauto).
  split; [exact Hl|]. split; [exact Hb|].
  exact (initiateCall_already_in_call Scenario.alice_ringing "carol" "Carol" ""
           Scenario.setup Hl Hb).
Defined.

(** Without a signed-in user the attempt is refused as well, with another
    message; the check comes first in [initiateCall]. *)
Lemma initiateCall_not_logged_in r peerId peerName peerPhoto x w :
  ~ logged_in r ->
  initiateCall r peerId peerName peerPhoto x w
    = toast t_error "Please log in to make calls" w.
Proof.
  intros Hn. unfold initiateCall.
  destruct (currentUser r) as [uid|] eqn:Hu; [|done].
  destruct (userProfile r) as [p|] eqn:Hp; [|done].
  destruct Hn. unfold logged_in. rewrite Hu, Hp. eauto.
Qed.

(** ** C7: [acceptCall] while already in a call *)

(** C7 (the code at the failing input).  Alice has an outgoing call to Bob in
    state [ringing] and an incoming call from Carol still surfaced.
    [acceptCall] has no guard on [isInCall] / [currentCall]: it is not refused
    (its only toast is "Call accepted"), it requests the microphone a second
    time, creates a second peer connection while the first stays open and
    loses its ref, writes [accepted] into Carol's record and replaces the
    session with Bob by a session with Carol. *)
Theorem acceptCall_while_in_call_proceeds :
  (* before: a session with Bob exists and Carol's call is surfaced *)
  (CallState.peerId <$> currentCall (ui Busy.alice_busy) = Some "bob" /\
   CallData.id <$> incomingCall (ui Busy.alice_busy) = Some "call0" /\
   micRequests (rt Busy.alice_busy) = 1 /\
   peerConnectionRef (refs Busy.alice_busy) = Some 2) /\
  (* after acceptCall *)
  toasts (rt Busy.alice_accepts)
    = (toasts (rt Busy.alice_busy) ++ [(t_success, "Call accepted")]) /\
  micRequests (rt Busy.alice_accepts) = 2 /\
  (pc_closed <$> connections (rt Busy.alice_accepts) !! 2 = Some false /\
   pc_closed <$> connections (rt Busy.alice_accepts) !! 5 = Some false /\
   connections (rt Busy.alice_busy) !! 5 = None /\
   peerConnectionRef (refs Busy.alice_accepts) = Some 5) /\
  writes (rt Busy.alice_accepts)
    = (writes (rt Busy.alice_busy) ++ [W_status "call0" CallData.accepted]) /\
  CallData.status <$> db (rt Busy.alice_accepts) !! "call0" = Some CallData.accepted /\
  CallState.peerId <$> currentCall (ui Busy.alice_accepts) = Some "carol".
Proof.
  repeat apply conj; vm_compute; reflexivity.
Qed.

(** [acceptCall] looks at [incomingCall] and [currentUser] only: with a call
    surfaced and a user signed in it asks for the microphone, whatever
    [isInCall] and [currentCall] say. *)
Lemma acceptCall_requests_microphone r x w ic uid :
  incomingCall r = Some ic -> currentUser r = Some uid ->
  micRequests (rt (acceptCall r x w)) = S (micRequests (rt w)).
Proof.
  intros Hic Hu. unfold acceptCall. rewrite Hic, Hu.
  set (w1 := setCurrentCall _ _).
  pose proof (requestMicrophoneAccess_counts (browser x) w1) as Hm.
  assert (micRequests (rt w1) = micRequests (rt w)) as Hw1 by (subst w1; by look).
  rewrite Hw1 in Hm. clear Hw1.
  destruct (requestMicrophoneAccess (browser x) w1) as [[stream|] w2]; proj;
    [|by rewrite declineCall_micRequests].
  unfold createPeerConnection, alloc. proj.
  destruct (CallData.offer (CallData.data ic)) as [offer|];
    [destruct (remoteDescriptionOk x); [destruct (localDescription x) as [answer|]|]|];
    try (rewrite declineCall_micRequests; by look).
  set (w3 := upd_pc _ (pc_setLocalDescription answer) _).
  pose proof (updateDoc_micRequests (CallData.id ic)
                (fun d => CallData.set_answer (mkSdp (sdp_type answer) (sdp answer))
                            (CallData.set_status CallData.accepted d))
                (log_write (W_status (CallData.id ic) CallData.accepted) w3)) as Ha.
  unfold CallService.acceptCall.
  destruct (updateDoc _ _ _) as [[] w4]; proj.
  - look. rewrite Ha. subst w3. by look.
  - rewrite declineCall_micRequests. look. rewrite Ha. subst w3. by look.
Qed.

(** ** C8: [endCall] twice *)

(** C8 (the code at the failing input).  Alice is in a connected call and
    presses the hang-up button twice; both presses run the [endCall] of the
    same render.  The first reaches its [await] with [currentCallDocRef] still
    set (it is cleared only after the [await]), so the second press issues a
    second [ended] write for the same record; and both invocations read
    [currentCall] from their render, where it is still set, so each appends a
    [CallLog]: two entries for one call.  The second entry is appended even
    when the second invocation starts after the first has finished.  A
    single [endCall] appends one entry and writes once. *)
Theorem endCall_twice_duplicates_log :
  (* one press *)
  (length (callHistory (ui HangUp.once)) = 1 /\
   writes (rt HangUp.once)
     = (writes (rt HangUp.in_call) ++ [W_status "call1" CallData.ended])) /\
  (* two presses, the second during the first one's store write *)
  (endCall_suspends HangUp.in_call = true /\
   currentCallDocRef (refs (endCall_begin HangUp.r HangUp.in_call)) = Some "call1" /\
   length (callHistory (ui HangUp.double_press)) = 2 /\
   writes (rt HangUp.double_press)
     = (writes (rt HangUp.in_call)
          ++ [W_status "call1" CallData.ended; W_status "call1" CallData.ended])) /\
  (* the same function called again after it has finished *)
  (length (callHistory (ui HangUp.same_closure_twice)) = 2 /\
   writes (rt HangUp.same_closure_twice)
     = (writes (rt HangUp.in_call) ++ [W_status "call1" CallData.ended])).
Proof. repeat apply conj; vm_compute; reflexivity. Qed.

(** What does hold: called when the client is Idle, by a function whose
    render is Idle too (as after a re-render), [endCall] appends nothing,
    writes nothing and leaves the client Idle. *)
Lemma endCall_when_idle r w :
  currentCall r = None -> idle (ui w) -> currentCallDocRef (refs w) = None ->
  let w' := endCall r w in
  callHistory (ui w') = callHistory (ui w) /\
  db (rt w') = db (rt w) /\ writes (rt w') = writes (rt w) /\ idle (ui w').
Proof.
  intros Hr [Hi Hc] Hd. cbv zeta.
  split; [by rewrite endCall_history, Hr|].
  destruct (endCall_store r w) as (-> & -> & _).
  destruct (endCall_begin_spec r w) as (_ & _ & -> & -> & _).
  rewrite Hd. simpl. rewrite app_nil_r.
  split; [done|]. split; [done|]. apply endCall_idle.
Qed.

(** In particular a second [endCall] taken from the render that follows the
    first one is such a call. *)
Lemma endCall_again_after_render r w :
  let w1 := endCall r w in
  let w2 := endCall (render w1) w1 in
  callHistory (ui w2) = callHistory (ui w1) /\
  db (rt w2) = db (rt w1) /\ writes (rt w2) = writes (rt w1) /\ idle (ui w2).
Proof.
  cbv zeta. destruct (endCall_idle r w) as (Hidle & _ & Hrefs).
  apply endCall_when_idle; [apply Hidle|exact Hidle|by rewrite Hrefs].
Qed.

(** ** C9: the microphone is refused during [initiateCall] *)

(** C9.  When the microphone cannot be acquired during [initiateCall]
    (permission denied, or any other failure: [requestMicrophoneAccess]
    returns [null] for all of them), no record is created (the store and its
    write log are unchanged), no peer connection is created and
    [peerConnectionRef] is not set, no listener or timer is left behind, and
    the session is Idle again: [currentCall] is null and [isInCall] false. *)
Theorem initiateCall_microphone_refused
    (w : World) (peerId peerName peerPhoto : string) (x : Setup) :
  logged_in (render w) ->
  idle (render w) ->
  fst (requestMicrophoneAccess (browser x) w) = None ->
  let w' := initiateCall (render w) peerId peerName peerPhoto x w in
  db (rt w') = db (rt w) /\ writes (rt w') = writes (rt w) /\
  connections (rt w') = connections (rt w) /\
  peerConnectionRef (refs w') = peerConnectionRef (refs w) /\
  localStreamRef (refs w') = localStreamRef (refs w) /\
  listeners (rt w') = listeners (rt w) /\ timeouts (rt w') = timeouts (rt w) /\
  currentCall (ui w') = None /\ isInCall (ui w') = false.
Proof.
  intros [[uid Hu] [p Hp]] [Hin Hcur] Hmic. unfold initiateCall.
  rewrite Hu, Hp, Hin, Hcur. simpl.
  set (w1 := setCurrentCall _ _).
  pose proof (requestMicrophoneAccess_stream (browser x) w1 w) as Hs.
  pose proof (requestMicrophoneAccess_frame (browser x) w1) as Hf.
  destruct (requestMicrophoneAccess (browser x) w1) as [stream w2]. simpl in *.
  rewrite Hmic in Hs. subst stream.
  destruct Hf as (Hui & Hrefs & Hdb & Hwr & Hco & Hli & Hti & _).
  unfold render in *.
  repeat split; simpl; try congruence.
  - by rewrite Hrefs.
  - by rewrite Hrefs.
  - rewrite Hui. simpl. exact Hin.
Qed.

Lemma initiateCall_microphone_refused_witness :
  let w := Scenario.alice0 in
  let w' := initiateCall (render w) "bob" "Bob" "" Scenario.setup_denied w in
  logged_in (render w) /\ idle (render w) /\
  fst (requestMicrophoneAccess (browser Scenario.setup_denied) w) = None /\
  db (rt w') = db (rt w) /\ writes (rt w') = writes (rt w) /\
  connections (rt w') = connections (rt w) /\
  peerConnectionRef (refs w') = peerConnectionRef (refs w) /\
  localStreamRef (refs w') = localStreamRef (refs w) /\
  listeners (rt w') = listeners (rt w) /\ timeouts (rt w') = timeouts (rt w) /\
  currentCall (ui w') = None /\ isInCall (ui w') = false.
Proof.
  assert (logged_in (render Scenario.alice0)) as Hl by (split; vm_compute; eauto).
  assert (idle (render Scenario.alice0)) as Hi by (split; reflexivity).
  assert (fst (requestMicrophoneAccess (browser Scenario.setup_denied) Scenario.alice0) = None)
    as Hm by reflexivity.
  split; [exact Hl|]. split; [exact Hi|]. split; [exact Hm|].
  exact (initiateCall_microphone_refused Scenario.alice0 "bob" "Bob" ""
           Scenario.setup_denied Hl Hi Hm).
Defined.

(** ** C10: appending a candidate *)

(** C10 (the code at the failing input).  [addIceCandidate] is a
    read-modify-write: it reads the whole array with [getDocs], awaits, and
    writes back [[...existingCandidates, candidate]] with [updateDoc].  When
    one party's session discovers [c1] and [c2] one right after the other,
    both handlers read the array before either writes; the second write then
    replaces the first and the array ends as [existing ++ [c2]]: [c1] is
    lost.  Run one after the other, the two appends give
    [existing ++ [c1; c2]]. *)
Theorem addIceCandidate_interleaved_loses_candidate
    (callId : string) (isCaller : bool) (c1 c2 : RTCIceCandidateInit)
    (d : CallData.doc) (w : World) :
  db (rt w) !! callId = Some d ->
  let existing := candidateField isCaller d in
  (* both reads *)
  readCandidates callId isCaller w = Some existing /\
  (* read, read, write, write *)
  readCandidates callId isCaller
    (writeCandidates callId isCaller existing c2
       (writeCandidates callId isCaller existing c1 w))
    = Some (existing ++ [c2]) /\
  (* read, write, read, write *)
  readCandidates callId isCaller
    (addIceCandidate callId c2 isCaller (addIceCandidate callId c1 isCaller w))
    = Some (existing ++ [c1; c2]).
Proof.
  intros Hd. cbv zeta.
  assert (readCandidates callId isCaller w = Some (candidateField isCaller d)) as Hr
    by (by rewrite readCandidates_eq, Hd).
  split; [exact Hr|]. split.
  - pose proof (writeCandidates_db callId isCaller (candidateField isCaller d) c1 d w Hd) as H1.
    by rewrite (writeCandidates_read _ _ _ _ _ _ H1).
  - unfold addIceCandidate at 2. rewrite Hr.
    pose proof (writeCandidates_db callId isCaller (candidateField isCaller d) c1 d w Hd) as H1.
    pose proof (writeCandidates_read callId isCaller (candidateField isCaller d) c1 d w Hd) as R1.
    unfold addIceCandidate. rewrite R1.
    rewrite (writeCandidates_read _ _ _ _ _ _ H1). by rewrite <- app_assoc.
Qed.

Lemma addIceCandidate_interleaved_loses_candidate_witness :
  let w := Receiver.bob_accepted in
  let d := CallData.set_answer Scenario.answer
             (CallData.set_status CallData.accepted Watcher.alice_doc) in
  let existing := candidateField false d in
  db (rt w) !! "call1" = Some d /\
  readCandidates "call1" false w = Some existing /\
  readCandidates "call1" false
    (writeCandidates "call1" false existing "cand-b2"
       (writeCandidates "call1" false existing "cand-b1" w))
    = Some (existing ++ ["cand-b2"]) /\
  readCandidates "call1" false
    (addIceCandidate "call1" "cand-b2" false (addIceCandidate "call1" "cand-b1" false w))
    = Some (existing ++ ["cand-b1"; "cand-b2"]).
Proof.
  assert (db (rt Receiver.bob_accepted) !! "call1"
          = Some (CallData.set_answer Scenario.answer
                    (CallData.set_status CallData.accepted Watcher.alice_doc))) as Hd
    by (vm_compute; reflexivity).
  split; [exact Hd|].
  exact (addIceCandidate_interleaved_loses_candidate "call1" false "cand-b1" "cand-b2"
           _ Receiver.bob_accepted Hd).
Defined.

(** The same at a concrete call: Bob's session discovers [cand-b1] and
    [cand-b2]; alone, the first reaches the record; interleaved, only the
    second is left. *)
Example receiver_candidates_interleaved :
  CallData.receiverCandidates <$> db (rt Receiver.bob_accepted) !! "call1" = Some [] /\
  CallData.receiverCandidates <$> db (rt Receiver.bob_candidate) !! "call1"
    = Some ["cand-b1"] /\
  CallData.receiverCandidates <$> db (rt Receiver.bob_two_candidates_interleaved) !! "call1"
    = Some ["cand-b2"].
Proof. repeat apply conj; vm_compute; reflexivity. Qed.

(** Appends of the two parties go to different fields and do not disturb
    each other, in whatever order the reads and writes fall. *)
Lemma appends_of_both_parties_are_kept callId cCaller cReceiver exC exR d w :
  db (rt w) !! callId = Some d ->
  let w' := writeCandidates callId false exR cReceiver
              (writeCandidates callId true exC cCaller w) in
  readCandidates callId true w' = Some (exC ++ [cCaller]) /\
  readCandidates callId false w' = Some (exR ++ [cReceiver]).
Proof.
  intros Hd. cbv zeta.
  pose proof (writeCandidates_db callId true exC cCaller d w Hd) as H1.
  split.
  - by rewrite (writeCandidates_other_field callId false _ _ _ _ H1).
  - by rewrite (writeCandidates_read _ _ _ _ _ _ H1).
Qed.

(** * Further properties of the call subsystem *)

(** ** The call timer *)

Lemma foldr_tick w (l : list nat) :
  (forall h, h ∈ l -> h ∈ intervals (rt w)) ->
  foldr tick w l = updCallDuration (fun d => length l + d) w.
Proof.
  induction l as [|a l IH]; intros Hl.
  - by destruct w as [[] ? ?].
  - simpl. rewrite IH by (intros h Hh; apply Hl; by right).
    unfold tick. rewrite decide_True by (apply Hl; by left).
    by destruct w as [[] ? ?].
Qed.

(** One second adds one to the duration for every live interval. *)
Lemma second_eq w :
  second w = updCallDuration (fun d => length (intervals (rt w)) + d) w.
Proof. unfold second. by apply foldr_tick. Qed.

Lemma seconds_spec n w :
  callDuration (ui (Nat.iter n second w))
    = callDuration (ui w) + n * length (intervals (rt w)) /\
  rt (Nat.iter n second w) = rt w /\ refs (Nat.iter n second w) = refs w.
Proof.
  induction n as [|n (IH1 & IH2 & IH3)]; [simpl; repeat apply conj; [lia|done|done]|].
  simpl. rewrite second_eq. look. rewrite IH1, IH2, IH3. repeat apply conj; [lia|done|done].
Qed.

(** X1.  A timer started while no other interval is live counts seconds:
    [n] seconds after [startTimer] the duration is [n], whatever it was
    before. *)
Theorem timer_counts_seconds (w : World) (n : nat) :
  intervals (rt w) = [] ->
  callDuration (ui (Nat.iter n second (startTimer w))) = n.
Proof.
  intros Hi. destruct (seconds_spec n (startTimer w)) as (-> & _).
  look. rewrite Hi. simpl. lia.
Qed.

Lemma timer_counts_seconds_witness :
  intervals (rt Scenario.alice0) = [] /\
  callDuration (ui (Nat.iter 7 second (startTimer Scenario.alice0))) = 7.
Proof.
  assert (intervals (rt Scenario.alice0) = []) as H by reflexivity.
  split; [exact H|]. exact (timer_counts_seconds Scenario.alice0 7 H).
Defined.

(** X2.  [stopTimer] halts the count without resetting it, and
    [resetTimer] zeroes it: after [n] seconds of a timer and [stopTimer], the
    duration stays [n] however long one waits; after [resetTimer] it is 0 and
    stays 0. *)
Theorem stopTimer_halts_resetTimer_zeroes (w : World) (n m : nat) :
  intervals (rt w) = [] ->
  let running := Nat.iter n second (startTimer w) in
  callDuration (ui (Nat.iter m second (stopTimer running))) = n /\
  callDuration (ui (Nat.iter m second (resetTimer running))) = 0 /\
  intervalRef (refs (stopTimer running)) = None /\
  intervals (rt (stopTimer running)) = [].
Proof.
  intros Hi. cbv zeta.
  destruct (seconds_spec n (startTimer w)) as (Hn & Hrt & Hrefs).
  assert (callDuration (ui (Nat.iter n second (startTimer w))) = n) as Hn'
    by (rewrite Hn; look; rewrite Hi; simpl; lia).
  clear Hn. rename Hn' into Hn.
  set (running := Nat.iter n second (startTimer w)) in *.
  assert (intervalRef (refs running) = Some (nextHandle (rt w))) as Href
    by (rewrite Hrefs; by look).
  assert (intervals (rt running) = [nextHandle (rt w)]) as Hint
    by (rewrite Hrt; look; by rewrite Hi).
  assert (intervals (rt (stopTimer running)) = []) as Hstop.
  { unfold stopTimer. rewrite Href. unfold clearInterval. look. rewrite Hint.
    rewrite filter_cons_False by tauto. by rewrite filter_nil. }
  assert (callDuration (ui (stopTimer running)) = n) as Hd.
  { unfold stopTimer. rewrite Href. unfold clearInterval. by look. }
  repeat apply conj.
  - destruct (seconds_spec m (stopTimer running)) as (-> & _). rewrite Hstop, Hd. simpl. lia.
  - destruct (seconds_spec m (resetTimer running)) as (-> & _).
    unfold resetTimer. look. rewrite Hstop. simpl. lia.
  - unfold stopTimer. rewrite Href. by look.
  - exact Hstop.
Qed.

Lemma stopTimer_halts_resetTimer_zeroes_witness :
  let w := Scenario.alice0 in
  let running := Nat.iter 7 second (startTimer w) in
  intervals (rt w) = [] /\
  callDuration (ui (Nat.iter 3 second (stopTimer running))) = 7 /\
  callDuration (ui (Nat.iter 3 second (resetTimer running))) = 0 /\
  intervalRef (refs (stopTimer running)) = None /\
  intervals (rt (stopTimer running)) = [].
Proof.
  assert (intervals (rt Scenario.alice0) = []) as H by reflexivity.
  split; [exact H|]. exact (stopTimer_halts_resetTimer_zeroes Scenario.alice0 7 3 H).
Defined.

(** Without a running timer [stopTimer] does nothing, so stopping twice is
    stopping once. *)
Lemma stopTimer_idempotent w : stopTimer (stopTimer w) = stopTimer w.
Proof.
  unfold stopTimer at 2 3. destruct (intervalRef (refs w)) as [h|] eqn:H.
  - unfold stopTimer. by look.
  - unfold stopTimer. by rewrite H.
Qed.

(** ** Teardown of the transport: [cleanup] *)

(** X3.  [cleanup] closes the current peer connection, drops the local
    stream and detaches the remote audio, touching nothing else: the React
    state, the store, the listeners and every other peer connection are as
    before.  It is safe to repeat: a second [cleanup] changes nothing. *)
Theorem cleanup_releases_and_is_idempotent (w : World) :
  let w' := cleanup w in
  cleanup w' = w' /\
  peerConnectionRef (refs w') = None /\ localStreamRef (refs w') = None /\
  remoteAudioSrc (refs w') = None /\
  ui w' = ui w /\ db (rt w') = db (rt w) /\ writes (rt w') = writes (rt w) /\
  listeners (rt w') = listeners (rt w) /\ timeouts (rt w') = timeouts (rt w) /\
  (forall h, peerConnectionRef (refs w) = Some h ->
             pc_closed <$> connections (rt w') !! h
               = (fun _ => true) <$> connections (rt w) !! h) /\
  (forall h, peerConnectionRef (refs w) <> Some h ->
             connections (rt w') !! h = connections (rt w) !! h).
Proof.
  destruct w as [u [i p s a d t c l] e]. unfold cleanup. proj.
  destruct p as [h0|], s as [st|]; look; repeat apply conj; try done.
  - intros h [= <-]. rewrite lookup_alter_eq. by destruct (connections e !! h0).
  - intros h Hne. rewrite lookup_alter_ne; [done|congruence].
  - intros h [= <-]. rewrite lookup_alter_eq. by destruct (connections e !! h0).
  - intros h Hne. rewrite lookup_alter_ne; [done|congruence].
Qed.

(** ** [toggleMute] *)

Lemma fmap_negb_involutive (l : list bool) : negb <$> (negb <$> l) = l.
Proof. induction l as [|b l IH]; [done|]. rewrite !fmap_cons, IH. by rewrite negb_involutive. Qed.

(** X4.  [toggleMute] is local: it issues no store write and changes no
    record, listener, timer or peer connection; it never changes the
    session's [status] nor [isInCall].  It acts only while a local stream is
    held: then [isMuted] and every track's [enabled] flag are flipped;
    without a stream (microphone not yet granted) the world is unchanged. *)
Theorem toggleMute_is_local (r : Render) (w : World) :
  let w' := toggleMute r w in
  db (rt w') = db (rt w) /\ writes (rt w') = writes (rt w) /\
  listeners (rt w') = listeners (rt w) /\ timeouts (rt w') = timeouts (rt w) /\
  connections (rt w') = connections (rt w) /\
  isInCall (ui w') = isInCall (ui w) /\
  CallState.status <$> currentCall (ui w') = CallState.status <$> currentCall (ui w) /\
  match localStreamRef (refs w) with
  | Some s =>
      CallState.isMuted <$> currentCall (ui w')
        = negb ∘ CallState.isMuted <$> currentCall (ui w) /\
      localStreamRef (refs w') = Some (mkStream (negb <$> audioTracks s))
  | None => w' = w
  end.
Proof.
  unfold toggleMute. destruct (localStreamRef (refs w)) as [s|]; [|done].
  look. repeat apply conj; try done; by destruct (currentCall (ui w)).
Qed.

(** X5.  Toggling twice restores the session and the tracks, whichever
    renders the two presses come from. *)
Theorem toggleMute_twice (r1 r2 : Render) (w : World) :
  let w' := toggleMute r2 (toggleMute r1 w) in
  currentCall (ui w') = currentCall (ui w) /\
  localStreamRef (refs w') = localStreamRef (refs w).
Proof.
  unfold toggleMute at 2. destruct (localStreamRef (refs w)) as [[tracks]|] eqn:Hs.
  - unfold toggleMute. look. split.
    + destruct (currentCall (ui w)) as [[? ? ? ? m ?]|]; [|done].
      simpl. unfold CallState.flip_muted. simpl. by rewrite negb_involutive.
    + cbn [audioTracks]. by rewrite fmap_negb_involutive.
  - unfold toggleMute. by rewrite Hs.
Qed.

(** ** Microphone acquisition *)

(** A granted request shows no toast. *)
Lemma requestMicrophoneAccess_granted_toasts b w :
  is_Some (fst (requestMicrophoneAccess b w)) ->
  toasts (rt (snd (requestMicrophoneAccess b w))) = toasts (rt w).
Proof.
  unfold requestMicrophoneAccess, checkMicrophonePermission.
  destruct b as [sec http loc has gum]. cbn [isSecureContext protocolIsHttp
    hostnameIsLocalhost hasGetUserMedia getUserMedia].
  destruct sec, http, loc, has; cbn [negb andb orb fst snd]; try (by intros [? [=]]).
  all: destruct gum as [e|[tracks]]; cbn [audioTracks];
    [|destruct (decide (length tracks = 0)) as [Hl|Hl]]; cbn [fst snd];
    try (by intros [? [=]]); intros _; by look.
Qed.

(** X6.  [requestMicrophoneAccess] never throws and yields a stream exactly
    when the page may ask, [getUserMedia] resolves and the stream has an audio
    track.  A granted request shows no toast; every refused one shows exactly
    one error toast and returns null; when [getUserMedia] itself rejects, the
    toast is the message chosen for the error's name. *)
Theorem requestMicrophoneAccess_outcome (b : Browser) (w : World) :
  let stream := fst (requestMicrophoneAccess b w) in
  let w' := snd (requestMicrophoneAccess b w) in
  (forall s, stream = Some s <->
             may_ask b /\ getUserMedia b = inr s /\ audioTracks s <> []) /\
  (is_Some stream -> toasts (rt w') = toasts (rt w)) /\
  (stream = None -> exists msg, toasts (rt w') = toasts (rt w) ++ [(t_error, msg)]) /\
  (forall e, may_ask b -> getUserMedia b = inl e ->
             toasts (rt w') = toasts (rt w) ++ [(t_error, microphone_error_message e)]) /\
  micRequests (rt w') = S (micRequests (rt w)).
Proof.
  unfold requestMicrophoneAccess, checkMicrophonePermission, may_ask.
  destruct b as [sec http loc has gum]. cbn [isSecureContext protocolIsHttp
    hostnameIsLocalhost hasGetUserMedia getUserMedia].
  destruct sec, http, loc, has; cbn [negb andb orb fst snd];
    try (repeat apply conj;
         [intros s; split; [discriminate|intros [[H1 H2] _]; intuition discriminate]
         |intros [? [=]]|intros _; look; eauto
         |intros e [H1 H2]; intuition discriminate|by look]).
  all: destruct gum as [e|[tracks]]; cbn [audioTracks];
    [|destruct (decide (length tracks = 0)) as [Hl|Hl]]; cbn [fst snd];
    (repeat apply conj;
     [intros s; split;
      [try discriminate; intros [= <-]; repeat split; eauto; by destruct tracks
      |intros (_ & Hg & Ht); try discriminate Hg; simplify_eq; cbn [audioTracks] in *;
       try (destruct tracks; [done|discriminate Hl]); done]
     |try (intros [? [=]]); by look
     |try discriminate; intros _; look; eauto
     |intros e' _ Hg; try discriminate Hg; simplify_eq; by look
     |by look]).
Qed.

(** X7.  The messages for the six named microphone errors are pairwise
    different, and none of them is the fallback text, which always starts with
    "Could not access microphone: ": the user can tell the causes apart. *)
Theorem microphone_error_messages_distinct (e1 e2 : MediaError) :
  microphone_error_message e1 = microphone_error_message e2 ->
  e1 = e2 \/ exists m1 m2, e1 = OtherError m1 /\ e2 = OtherError m2.
Proof.
  destruct e1, e2; cbn [microphone_error_message]; intros H;
    try (by left); try discriminate H; right; eauto.
Qed.

Lemma microphone_error_messages_distinct_witness :
  microphone_error_message NotAllowedError = microphone_error_message NotAllowedError /\
  (NotAllowedError = NotAllowedError \/
   exists m1 m2, NotAllowedError = OtherError m1 /\ NotAllowedError = OtherError m2).
Proof.
  split; [reflexivity|].
  exact (microphone_error_messages_distinct NotAllowedError NotAllowedError eq_refl).
Defined.

(** ** [CallService]: creating and updating records *)

(** X8.  [createCall] stores the record under the id Firestore assigns and
    returns that id; read back, the record has the fields passed in, except
    that both candidate arrays are empty whatever was passed; no other record
    changes.  When [addDoc] throws, nothing is stored. *)
Theorem createCall_roundtrip (callId : string) (callData : CallData.doc) (w : World) :
  let w' := snd (CallService.createCall (Some callId) callData w) in
  fst (CallService.createCall (Some callId) callData w) = Some callId /\
  (exists d, CallService.snapshot callId w' = Some (CallData.mk callId d) /\
             CallData.callerCandidates d = [] /\ CallData.receiverCandidates d = [] /\
             CallData.status d = CallData.status callData /\
             CallData.offer d = CallData.offer callData /\
             CallData.answer d = CallData.answer callData /\
             CallData.callerId d = CallData.callerId callData /\
             CallData.receiverId d = CallData.receiverId callData /\
             CallData.callerName d = CallData.callerName callData /\
             CallData.receiverName d = CallData.receiverName callData) /\
  (forall other, other <> callId -> db (rt w') !! other = db (rt w) !! other) /\
  writes (rt w') = (writes (rt w) ++ [W_create callId]) /\
  CallService.createCall None callData w = (None, w).
Proof.
  unfold CallService.createCall, CallService.snapshot. look. repeat apply conj; try done.
  - eexists. rewrite lookup_insert_eq. by repeat apply conj.
  - intros other Hne. by rewrite lookup_insert_ne.
Qed.

(** X9.  A status write to a record that does not exist fails and creates
    nothing: [acceptCall], [declineCall] and [endCall] of [CallService] use
    [updateDoc], which never brings a deleted record back. *)
Theorem status_write_on_missing_record (callId : string) (o : StatusWrite) (w : World) :
  db (rt w) !! callId = None ->
  fst (run_write callId o w) = false /\
  db (rt (snd (run_write callId o w))) = db (rt w).
Proof.
  intros Hd. destruct o; unfold run_write; unfold_ops; proj; by rewrite Hd.
Qed.

Lemma status_write_on_missing_record_witness :
  db (rt Scenario.alice0) !! "gone" = None /\
  fst (run_write "gone" write_decline Scenario.alice0) = false /\
  db (rt (snd (run_write "gone" write_decline Scenario.alice0))) = db (rt Scenario.alice0).
Proof.
  assert (db (rt Scenario.alice0) !! "gone" = None) as H by reflexivity.
  split; [exact H|].
  exact (status_write_on_missing_record "gone" write_decline Scenario.alice0 H).
Defined.

(** ** [declineCall] *)

(** X10.  [declineCall] on a surfaced call whose record exists marks the
    record [declined] and clears the prompt; it creates and tears down
    nothing: session, [isInCall], refs, peer connections and listeners are as
    before.  No toast appears: the [toast.info('Call declined')] that follows
    fails, and the [catch] only logs. *)
Theorem declineCall_declines
    (r : Render) (ic : CallData.t) (d : CallData.doc) (w : World) :
  incomingCall r = Some ic ->
  db (rt w) !! CallData.id ic = Some d ->
  let w' := declineCall r w in
  db (rt w') !! CallData.id ic = Some (CallData.set_status CallData.declined d) /\
  incomingCall (ui w') = None /\
  currentCall (ui w') = currentCall (ui w) /\ isInCall (ui w') = isInCall (ui w) /\
  refs w' = refs w /\
  connections (rt w') = connections (rt w) /\ listeners (rt w') = listeners (rt w) /\
  writes (rt w') = (writes (rt w) ++ [W_status (CallData.id ic) CallData.declined]) /\
  toasts (rt w') = toasts (rt w).
Proof.
  intros Hic Hd. unfold declineCall, declineCall_begin, declineCall_resume. rewrite Hic.
  unfold CallService.declineCall, updateDoc. look. rewrite Hd. look.
  rewrite lookup_insert_eq. by repeat apply conj.
Qed.

Lemma declineCall_declines_witness :
  let w := Watcher.bob_prompted in
  let ic := CallData.mk "call1" Watcher.alice_doc in
  let w' := declineCall (render w) w in
  incomingCall (render w) = Some ic /\
  db (rt w) !! CallData.id ic = Some Watcher.alice_doc /\
  db (rt w') !! CallData.id ic
    = Some (CallData.set_status CallData.declined Watcher.alice_doc) /\
  incomingCall (ui w') = None /\
  currentCall (ui w') = currentCall (ui w) /\ isInCall (ui w') = isInCall (ui w) /\
  refs w' = refs w /\
  connections (rt w') = connections (rt w) /\ listeners (rt w') = listeners (rt w) /\
  writes (rt w') = (writes (rt w) ++ [W_status (CallData.id ic) CallData.declined]) /\
  toasts (rt w') = toasts (rt w).
Proof.
  assert (incomingCall (render Watcher.bob_prompted)
          = Some (CallData.mk "call1" Watcher.alice_doc)) as H1 by (vm_compute; reflexivity).
  assert (db (rt Watcher.bob_prompted) !! CallData.id (CallData.mk "call1" Watcher.alice_doc)
          = Some Watcher.alice_doc) as H2 by (vm_compute; reflexivity).
  split; [exact H1|]. split; [exact H2|].
  exact (declineCall_declines _ _ _ Watcher.bob_prompted H1 H2).
Defined.

(** X11.  When the record of the surfaced call no longer exists, the write
    of [declineCall] fails and the failure is only logged: the prompt stays,
    no toast is shown and the store is unchanged.  Without a surfaced call
    [declineCall] does nothing at all. *)
Theorem declineCall_on_missing_record (r : Render) (ic : CallData.t) (w : World) :
  incomingCall r = Some ic ->
  db (rt w) !! CallData.id ic = None ->
  let w' := declineCall r w in
  ui w' = ui w /\ refs w' = refs w /\ db (rt w') = db (rt w) /\
  toasts (rt w') = toasts (rt w) /\
  (forall r0, incomingCall r0 = None -> declineCall r0 w = w).
Proof.
  intros Hic Hd. unfold declineCall, declineCall_begin, declineCall_resume. rewrite Hic.
  unfold CallService.declineCall, updateDoc. look. rewrite Hd. look.
  repeat apply conj; try done. by intros r0 ->.
Qed.

Lemma declineCall_on_missing_record_witness :
  let w := Scenario.alice0 in
  let ic := CallData.mk "gone" Watcher.alice_doc in
  let r := mkRender (Some "alice") None false None [] (Some ic) 0 in
  let w' := declineCall r w in
  incomingCall r = Some ic /\ db (rt w) !! CallData.id ic = None /\
  ui w' = ui w /\ refs w' = refs w /\ db (rt w') = db (rt w) /\
  toasts (rt w') = toasts (rt w) /\
  (forall r0, incomingCall r0 = None -> declineCall r0 w = w).
Proof.
  assert (db (rt Scenario.alice0) !! CallData.id (CallData.mk "gone" Watcher.alice_doc) = None)
    as H2 by reflexivity.
  split; [reflexivity|]. split; [exact H2|].
  exact (declineCall_on_missing_record
           (mkRender (Some "alice") None false None [] (Some (CallData.mk "gone" Watcher.alice_doc)) 0)
           _ Scenario.alice0 eq_refl H2).
Defined.

(** ** [acceptCall] *)

(** X12.  The accepting path.  With a call surfaced whose record exists and
    carries an offer, a user signed in, the microphone granted and the
    transport taking the offer and producing an answer, [acceptCall] marks the
    record [accepted] with that answer, keeps the offer and both candidate
    arrays, clears the prompt, remembers the record id, starts the timer from
    0, and wires a new peer connection holding the stream's tracks, the offer
    as remote and the answer as local description.  The session it creates
    has the caller as peer and stays [connecting]: only a transport event
    makes it [connected]. *)
Theorem acceptCall_accepts
    (r : Render) (x : Setup) (w : World) (ic : CallData.t) (uid : string)
    (stream : MediaStream) (offer answer : RTCSessionDescriptionInit) (d : CallData.doc) :
  incomingCall r = Some ic -> currentUser r = Some uid ->
  fst (requestMicrophoneAccess (browser x) w) = Some stream ->
  CallData.offer (CallData.data ic) = Some offer ->
  remoteDescriptionOk x = true -> localDescription x = Some answer ->
  db (rt w) !! CallData.id ic = Some d ->
  let w' := acceptCall r x w in
  let h := nextHandle (rt w) in
  db (rt w') !! CallData.id ic
    = Some (CallData.set_answer (mkSdp (sdp_type answer) (sdp answer))
              (CallData.set_status CallData.accepted d)) /\
  writes (rt w') = (writes (rt w) ++ [W_status (CallData.id ic) CallData.accepted]) /\
  incomingCall (ui w') = None /\
  currentCall (ui w')
    = Some (CallState.mk (CallData.callerId (CallData.data ic))
              (CallData.callerName (CallData.data ic))
              (CallData.callerPhoto (CallData.data ic)) 0 false CallState.connecting) /\
  isInCall (ui w') = isInCall (ui w) /\
  callDuration (ui w') = 0 /\
  refs w' = mkRefs (Some (S h)) (Some h) (Some stream) (remoteAudioSrc (refs w))
                   (Some (CallData.id ic)) (callTimeoutRef (refs w)) false
                   (callListenerRef (refs w)) /\
  intervals (rt w') = intervals (rt w) ++ [S h] /\
  connections (rt w') !! h
    = Some (mkPc (Some (CallData.id ic)) false r false (length (audioTracks stream))
              (Some answer) (Some offer) []).
Proof.
  intros Hic Hu Hm Hoff Hok Hans Hd. unfold acceptCall. rewrite Hic, Hu.
  set (w1 := setCurrentCall _ _).
  pose proof (requestMicrophoneAccess_frame (browser x) w1) as Hf.
  pose proof (requestMicrophoneAccess_stream (browser x) w1 w) as Hs.
  pose proof (requestMicrophoneAccess_granted_toasts (browser x) w1) as Hto.
  destruct (requestMicrophoneAccess (browser x) w1) as [s w2]. proj.
  rewrite Hm in Hs. subst s.
  destruct Hf as (Hui & Hrefs & Hdb & Hwr & Hco & Hli & Hti & Hint & Hnh).
  specialize (Hto (ex_intro _ stream eq_refl)).
  unfold createPeerConnection, alloc. proj. rewrite Hoff, Hok, Hans.
  unfold CallService.acceptCall, updateDoc. look.
  rewrite Hdb. subst w1. look. rewrite Hd. look.
  rewrite Hui, Hrefs, Hwr, Hco, Hint, Hnh. look.
  rewrite lookup_insert_eq, !alter_insert_eq, lookup_insert_eq.
  by repeat apply conj.
Qed.

Lemma acceptCall_accepts_witness :
  let w := Watcher.bob_prompted in
  let r := render w in
  let x := mkSetup Scenario.granted (Some Scenario.answer) true None in
  let ic := CallData.mk "call1" Watcher.alice_doc in
  let stream := mkStream [true] in
  let d := Watcher.alice_doc in
  let w' := acceptCall r x w in
  let h := nextHandle (rt w) in
  (incomingCall r = Some ic /\ currentUser r = Some "bob" /\
   fst (requestMicrophoneAccess (browser x) w) = Some stream /\
   CallData.offer (CallData.data ic) = Some Scenario.offer /\
   remoteDescriptionOk x = true /\ localDescription x = Some Scenario.answer /\
   db (rt w) !! CallData.id ic = Some d) /\
  db (rt w') !! CallData.id ic
    = Some (CallData.set_answer (mkSdp (sdp_type Scenario.answer) (sdp Scenario.answer))
              (CallData.set_status CallData.accepted d)) /\
  writes (rt w') = (writes (rt w) ++ [W_status (CallData.id ic) CallData.accepted]) /\
  incomingCall (ui w') = None /\
  currentCall (ui w')
    = Some (CallState.mk (CallData.callerId (CallData.data ic))
              (CallData.callerName (CallData.data ic))
              (CallData.callerPhoto (CallData.data ic)) 0 false CallState.connecting) /\
  isInCall (ui w') = isInCall (ui w) /\
  callDuration (ui w') = 0 /\
  refs w' = mkRefs (Some (S h)) (Some h) (Some stream) (remoteAudioSrc (refs w))
                   (Some (CallData.id ic)) (callTimeoutRef (refs w)) false
                   (callListenerRef (refs w)) /\
  intervals (rt w') = intervals (rt w) ++ [S h] /\
  connections (rt w') !! h
    = Some (mkPc (Some (CallData.id ic)) false r false (length (audioTracks stream))
              (Some Scenario.answer) (Some Scenario.offer) []).
Proof.
  assert (incomingCall (render Watcher.bob_prompted)
          = Some (CallData.mk "call1" Watcher.alice_doc)) as H1 by (vm_compute; reflexivity).
  assert (currentUser (render Watcher.bob_prompted) = Some "bob") as H2
    by (vm_compute; reflexivity).
  assert (fst (requestMicrophoneAccess
                 (browser (mkSetup Scenario.granted (Some Scenario.answer) true None))
                 Watcher.bob_prompted) = Some (mkStream [true])) as H3
    by (vm_compute; reflexivity).
  assert (db (rt Watcher.bob_prompted) !! CallData.id (CallData.mk "call1" Watcher.alice_doc)
          = Some Watcher.alice_doc) as H7 by (vm_compute; reflexivity).
  split; [by repeat apply conj|].
  exact (acceptCall_accepts (render Watcher.bob_prompted)
           (mkSetup Scenario.granted (Some Scenario.answer) true None)
           Watcher.bob_prompted (CallData.mk "call1" Watcher.alice_doc) "bob"
           (mkStream [true]) Scenario.offer Scenario.answer Watcher.alice_doc
           H1 H2 H3 eq_refl eq_refl eq_refl H7).
Defined.

(** X13.  The refused path.  When the microphone is refused during
    [acceptCall], the call is declined (record [declined], prompt cleared) and
    no peer connection, timer or record id is set up; but the session created
    at the start is not taken back: [currentCall] stays [connecting].  The
    client then counts as busy: [initiateCall] from the next render is refused
    with "Already in a call" and the watcher surfaces no further call. *)
Theorem acceptCall_microphone_refused
    (r : Render) (x : Setup) (w : World) (ic : CallData.t) (uid : string)
    (d : CallData.doc) :
  incomingCall r = Some ic -> currentUser r = Some uid ->
  fst (requestMicrophoneAccess (browser x) w) = None ->
  db (rt w) !! CallData.id ic = Some d ->
  let w' := acceptCall r x w in
  db (rt w') !! CallData.id ic = Some (CallData.set_status CallData.declined d) /\
  incomingCall (ui w') = None /\
  currentCall (ui w')
    = Some (CallState.mk (CallData.callerId (CallData.data ic))
              (CallData.callerName (CallData.data ic))
              (CallData.callerPhoto (CallData.data ic)) 0 false CallState.connecting) /\
  connections (rt w') = connections (rt w) /\
  peerConnectionRef (refs w') = peerConnectionRef (refs w) /\
  localStreamRef (refs w') = localStreamRef (refs w) /\
  currentCallDocRef (refs w') = currentCallDocRef (refs w) /\
  intervals (rt w') = intervals (rt w) /\
  (forall peerId peerName peerPhoto x', logged_in (render w') ->
     initiateCall (render w') peerId peerName peerPhoto x' w'
       = toast t_error "Already in a call" w') /\
  (forall calls, onIncomingCalls calls w' = w').
Proof.
  intros Hic Hu Hm Hd. unfold acceptCall. rewrite Hic, Hu.
  set (w1 := setCurrentCall _ _).
  pose proof (requestMicrophoneAccess_frame (browser x) w1) as Hf.
  pose proof (requestMicrophoneAccess_stream (browser x) w1 w) as Hs.
  destruct (requestMicrophoneAccess (browser x) w1) as [s w2]. proj.
  rewrite Hm in Hs. subst s.
  destruct Hf as (Hui & Hrefs & Hdb & Hwr & Hco & Hli & Hti & Hint & Hnh).
  unfold declineCall, declineCall_begin, declineCall_resume. rewrite Hic.
  unfold CallService.declineCall, updateDoc. look.
  rewrite Hdb. subst w1. look. rewrite Hd. look.
  rewrite Hui, Hrefs, Hco, Hint. look. rewrite lookup_insert_eq.
  repeat apply conj; try done.
  - intros peerId peerName peerPhoto x' [[u' Hu'] [p' Hp']].
    unfold initiateCall, render in *. look. rewrite Hu', Hp'.
    rewrite Hui. look. by rewrite orb_true_r.
  - intros calls. unfold onIncomingCalls. destruct calls as [|c calls]; [done|].
    look. rewrite Hui. look. by rewrite andb_false_r.
Qed.

Lemma acceptCall_microphone_refused_witness :
  let w := Watcher.bob_prompted in
  let r := render w in
  let x := mkSetup Scenario.denied (Some Scenario.answer) true None in
  let ic := CallData.mk "call1" Watcher.alice_doc in
  let d := Watcher.alice_doc in
  let w' := acceptCall r x w in
  (incomingCall r = Some ic /\ currentUser r = Some "bob" /\
   fst (requestMicrophoneAccess (browser x) w) = None /\
   db (rt w) !! CallData.id ic = Some d) /\
  db (rt w') !! CallData.id ic = Some (CallData.set_status CallData.declined d) /\
  incomingCall (ui w') = None /\
  currentCall (ui w')
    = Some (CallState.mk (CallData.callerId (CallData.data ic))
              (CallData.callerName (CallData.data ic))
              (CallData.callerPhoto (CallData.data ic)) 0 false CallState.connecting) /\
  connections (rt w') = connections (rt w) /\
  peerConnectionRef (refs w') = peerConnectionRef (refs w) /\
  localStreamRef (refs w') = localStreamRef (refs w) /\
  currentCallDocRef (refs w') = currentCallDocRef (refs w) /\
  intervals (rt w') = intervals (rt w) /\
  (forall peerId peerName peerPhoto x', logged_in (render w') ->
     initiateCall (render w') peerId peerName peerPhoto x' w'
       = toast t_error "Already in a call" w') /\
  (forall calls, onIncomingCalls calls w' = w').
Proof.
  assert (incomingCall (render Watcher.bob_prompted)
          = Some (CallData.mk "call1" Watcher.alice_doc)) as H1 by (vm_compute; reflexivity).
  assert (currentUser (render Watcher.bob_prompted) = Some "bob") as H2
    by (vm_compute; reflexivity).
  assert (fst (requestMicrophoneAccess
                 (browser (mkSetup Scenario.denied (Some Scenario.answer) true None))
                 Watcher.bob_prompted) = None) as H3 by (vm_compute; reflexivity).
  assert (db (rt Watcher.bob_prompted) !! CallData.id (CallData.mk "call1" Watcher.alice_doc)
          = Some Watcher.alice_doc) as H4 by (vm_compute; reflexivity).
  split; [by repeat apply conj|].
  exact (acceptCall_microphone_refused (render Watcher.bob_prompted)
           (mkSetup Scenario.denied (Some Scenario.answer) true None)
           Watcher.bob_prompted (CallData.mk "call1" Watcher.alice_doc) "bob"
           Watcher.alice_doc H1 H2 H3 H4).
Defined.

(** Without a surfaced call, or without a signed-in user, [acceptCall] does
    nothing. *)
Lemma acceptCall_not_applicable r x w :
  incomingCall r = None \/ currentUser r = None -> acceptCall r x w = w.
Proof.
  unfold acceptCall. intros [->| ->]; [done|]. by destruct (incomingCall r).
Qed.

(** ** Transport events *)

(** X14.  Of the transport's connection states only two act on the call.
    [connected] marks the session (if there is one) [connected] and sets
    [isInCall], also when no session exists; [failed] ends the call: the
    client is Idle, every ref is cleared and the peer connection is closed.
    [new], [connecting], [disconnected] and [closed] change nothing, so a
    passing disconnect does not drop the call. *)
Theorem connection_state_changes (r : Render) (state : RTCPeerConnectionState) (w : World) :
  let w' := handleConnectionStateChange r state w in
  match state with
  | state_connected =>
      currentCall (ui w') = CallState.with_status CallState.connected <$> currentCall (ui w) /\
      isInCall (ui w') = true /\ refs w' = refs w /\ rt w' = rt w
  | state_failed =>
      idle (ui w') /\ refs w' = mkRefs None None None None None None false None /\
      (forall h, peerConnectionRef (refs w) = Some h ->
                 pc_closed <$> connections (rt w') !! h
                   = (fun _ => true) <$> connections (rt w) !! h)
  | _ => w' = w
  end.
Proof.
  cbv zeta. destruct state; try done.
  unfold handleConnectionStateChange.
  set (w0 := toast t_error "Call connection failed" w).
  destruct (endCall_idle r w0) as (Hidle & _ & Hrefs).
  split; [exact Hidle|]. split; [exact Hrefs|].
  intros h Hh. destruct (endCall_store r w0) as (_ & _ & -> & _).
  destruct (endCall_begin_spec r w0) as (_ & _ & _ & _ & _ & _ & _ & -> & _).
  subst w0. look. rewrite Hh. rewrite lookup_alter_eq.
  by destruct (connections (rt w) !! h).
Qed.

(** ** The incoming-call watcher *)

(** X15.  The watcher only ever surfaces: while the client is busy a
    snapshot changes nothing; an empty snapshot changes nothing, so a call
    that stops ringing is not withdrawn from the prompt; and when the client
    is idle the newest call of a non-empty snapshot is surfaced, replacing
    whatever was shown, with a 30 s timer armed for it.  No snapshot writes
    to the store. *)
Theorem watcher_only_surfaces (calls : list CallData.t) (w : World) :
  let w' := onIncomingCalls calls w in
  (~ idle (ui w) -> w' = w) /\
  (calls = [] -> w' = w) /\
  (is_Some (incomingCall (ui w)) -> is_Some (incomingCall (ui w'))) /\
  (forall latest rest, idle (ui w) -> calls = latest :: rest ->
     incomingCall (ui w') = Some latest /\
     autoDeclines (rt w') = <[nextHandle (rt w) := CallData.id latest]> (autoDeclines (rt w))) /\
  db (rt w') = db (rt w) /\ writes (rt w') = writes (rt w) /\
  currentCall (ui w') = currentCall (ui w) /\ isInCall (ui w') = isInCall (ui w).
Proof.
  cbv zeta. unfold onIncomingCalls, idle.
  destruct calls as [|c rest]; [by repeat apply conj|].
  destruct (isInCall (ui w)) eqn:Hin; cbn [negb andb].
  { repeat apply conj; try done. intros latest rest' [? _]. done. }
  destruct (currentCall (ui w)) as [cc|] eqn:Hcc.
  { rewrite bool_decide_eq_true_2 by eauto. cbn [negb].
    repeat apply conj; try done. intros latest rest' [_ ?]. done. }
  rewrite bool_decide_eq_false_2 by (intros [? [=]]). cbn [negb]. look.
  repeat apply conj; try done.
  - by intros [].
  - intros latest rest' _ [= <- <-]. done.
Qed.

(** X16.  Fed by its query, the watcher shows only calls that ring for the
    signed-in user: a call newly surfaced by a snapshot of the collection is
    in the collection, names the user as receiver and has status [ringing].
    Without a signed-in user nothing is surfaced. *)
Theorem watcher_surfaces_ringing_calls_for_user
    (calls : list CallData.t) (w : World) (c : CallData.t) :
  incomingCall (ui (onIncomingSnapshot calls w)) = Some c ->
  incomingCall (ui w) = Some c \/
  (c ∈ calls /\ currentUser (ui w) = Some (CallData.receiverId (CallData.data c)) /\
   CallData.status (CallData.data c) = CallData.ringing).
Proof.
  unfold onIncomingSnapshot. destruct (currentUser (ui w)) as [uid|] eqn:Hu; [|by left].
  unfold onIncomingCalls.
  destruct (incomingCallsQuery uid calls) as [|latest rest] eqn:Hq; [by left|].
  destruct (negb (isInCall (ui w)) && negb (bool_decide (is_Some (currentCall (ui w)))));
    [|by left].
  look. intros [= ->]. right.
  assert (c ∈ incomingCallsQuery uid calls) as Hc by (rewrite Hq; by left).
  unfold incomingCallsQuery in Hc. apply list_elem_of_filter in Hc as [[<- Hs] Hin].
  done.
Qed.

Lemma watcher_surfaces_ringing_calls_for_user_witness :
  let calls := [CallData.mk "call1" Watcher.alice_doc] in
  let c := CallData.mk "call1" Watcher.alice_doc in
  incomingCall (ui (onIncomingSnapshot calls Watcher.bob_rung)) = Some c /\
  (incomingCall (ui Watcher.bob_rung) = Some c \/
   (c ∈ calls /\
    currentUser (ui Watcher.bob_rung) = Some (CallData.receiverId (CallData.data c)) /\
    CallData.status (CallData.data c) = CallData.ringing)).
Proof.
  assert (incomingCall (ui (onIncomingSnapshot [CallData.mk "call1" Watcher.alice_doc]
                              Watcher.bob_rung))
          = Some (CallData.mk "call1" Watcher.alice_doc)) as H by (vm_compute; reflexivity).
  split; [exact H|].
  exact (watcher_surfaces_ringing_calls_for_user _ Watcher.bob_rung _ H).
Defined.

(** ** The 30-second auto-decline *)

(** A timer armed for a call that the prompt no longer shows only retires. *)
Lemma fireAutoDecline_other_call h w callId :
  autoDeclines (rt w) !! h = Some callId ->
  CallData.id <$> incomingCall (ui w) <> Some callId ->
  fireAutoDecline h w = upd_autoDeclines (delete h) w.
Proof.
  intros Hh Hne. unfold fireAutoDecline. rewrite Hh. look.
  destruct (incomingCall (ui w)) as [current|]; [|done].
  rewrite bool_decide_eq_false_2; [done|]. intros <-. by apply Hne.
Qed.

(** X17.  A 30 s timer acts at most once and only on the call it was armed
    for: once fired it is gone, so firing again changes nothing; and when the
    prompt is empty or shows another call, its expiry writes nothing and
    leaves the prompt alone. *)
Theorem auto_decline_timer_fires_once (h : nat) (w : World) :
  let w' := fireAutoDecline h w in
  fireAutoDecline h w' = w' /\
  autoDeclines (rt w') !! h = None /\
  (forall callId, autoDeclines (rt w) !! h = Some callId ->
     CallData.id <$> incomingCall (ui w) <> Some callId ->
     w' = upd_autoDeclines (delete h) w).
Proof.
  cbv zeta. unfold fireAutoDecline.
  destruct (autoDeclines (rt w) !! h) as [callId|] eqn:Hh.
  - assert (forall w0, autoDeclines (rt w0) !! h = None ->
              match autoDeclines (rt w0) !! h with
              | Some latestId =>
                  let w1 := upd_autoDeclines (delete h) w0 in
                  match incomingCall (ui w1) with
                  | Some current =>
                      if bool_decide (CallData.id current = latestId)
                      then setIncomingCall None (snd (CallService.declineCall latestId w1))
                      else w1
                  | None => w1
                  end
              | None => w0
              end = w0) as Hnone by (by intros w0 ->).
    look. destruct (incomingCall (ui w)) as [current|] eqn:Hic.
    + destruct (bool_decide (CallData.id current = callId)) eqn:Hb.
      * apply bool_decide_eq_true in Hb.
        assert (autoDeclines
                  (rt (setIncomingCall None
                         (snd (CallService.declineCall callId (upd_autoDeclines (delete h) w)))))
                  !! h = None) as Hgone.
        { unfold CallService.declineCall, updateDoc. look.
          destruct (db (rt w) !! callId); look; apply lookup_delete_eq. }
        split; [by apply Hnone|]. split; [exact Hgone|].
        intros ? [= <-] Hne. destruct Hne. simpl. by rewrite Hb.
      * assert (autoDeclines (rt (upd_autoDeclines (delete h) w)) !! h = None) as Hgone
          by (look; apply lookup_delete_eq).
        split; [by apply Hnone|]. split; [exact Hgone|]. done.
    + assert (autoDeclines (rt (upd_autoDeclines (delete h) w)) !! h = None) as Hgone
        by (look; apply lookup_delete_eq).
      split; [by apply Hnone|]. split; [exact Hgone|]. done.
  - rewrite Hh. split; [done|]. split; [done|]. intros ? [=].
Qed.

(** X18.  Declining by hand and the 30 s timer.  For a surfaced call whose
    record exists: if the user declines and the timer expires afterwards, or
    the timer expires and the user then presses Decline on the next render,
    one [declined] write is issued in all; if the timer expires while
    [declineCall] awaits its write, the prompt still shows the call and a
    second [declined] write is issued.  In all three orders the record ends
    [declined] and the prompt empty. *)
Theorem decline_and_auto_decline_timer
    (h : nat) (ic : CallData.t) (d : CallData.doc) (w : World) :
  incomingCall (ui w) = Some ic ->
  autoDeclines (rt w) !! h = Some (CallData.id ic) ->
  db (rt w) !! CallData.id ic = Some d ->
  let manual_first := fireAutoDecline h (declineCall (render w) w) in
  let timer := fireAutoDecline h w in
  let timer_first := declineCall (render timer) timer in
  let timer_between := declineCall_timer_between h (render w) w in
  writes (rt manual_first)
    = (writes (rt w) ++ [W_status (CallData.id ic) CallData.declined]) /\
  writes (rt timer_first)
    = (writes (rt w) ++ [W_status (CallData.id ic) CallData.declined]) /\
  writes (rt timer_between)
    = (writes (rt w) ++ [W_status (CallData.id ic) CallData.declined;
                         W_status (CallData.id ic) CallData.declined]) /\
  CallData.status <$> db (rt manual_first) !! CallData.id ic = Some CallData.declined /\
  CallData.status <$> db (rt timer_first) !! CallData.id ic = Some CallData.declined /\
  CallData.status <$> db (rt timer_between) !! CallData.id ic = Some CallData.declined /\
  incomingCall (ui manual_first) = None /\ incomingCall (ui timer_first) = None /\
  incomingCall (ui timer_between) = None.
Proof.
  intros Hic Hh Hd. cbv zeta.
  assert (db (rt (declineCall (render w) w)) !! CallData.id ic
            = Some (CallData.set_status CallData.declined d) /\
          incomingCall (ui (declineCall (render w) w)) = None /\
          writes (rt (declineCall (render w) w))
            = writes (rt w) ++ [W_status (CallData.id ic) CallData.declined] /\
          autoDeclines (rt (declineCall (render w) w)) !! h = Some (CallData.id ic))
    as (Hdb1 & Hic1 & Hwr1 & Hh1).
  { unfold declineCall, declineCall_begin, declineCall_resume, render. rewrite Hic.
    unfold CallService.declineCall, updateDoc.
    look. rewrite Hd. look. rewrite lookup_insert_eq. by repeat apply conj. }
  rewrite (fireAutoDecline_other_call h _ _ Hh1) by (rewrite Hic1; discriminate).
  assert (fireAutoDecline h w
          = setIncomingCall None
              (snd (CallService.declineCall (CallData.id ic) (upd_autoDeclines (delete h) w))))
    as Htimer.
  { unfold fireAutoDecline. rewrite Hh. look. rewrite Hic.
    by rewrite bool_decide_eq_true_2. }
  rewrite Htimer.
  set (t := setIncomingCall None _).
  assert (declineCall (render t) t = t) as ->
    by (unfold declineCall, declineCall_begin, declineCall_resume, render; subst t; by look).
  assert (db (rt t) !! CallData.id ic = Some (CallData.set_status CallData.declined d) /\
          writes (rt t) = writes (rt w) ++ [W_status (CallData.id ic) CallData.declined] /\
          incomingCall (ui t) = None) as (Hdb2 & Hwr2 & Hic2).
  { subst t. unfold CallService.declineCall, updateDoc. look. rewrite Hd. look.
    by rewrite lookup_insert_eq. }
  assert (db (rt (declineCall_timer_between h (render w) w)) !! CallData.id ic
            = Some (CallData.set_status CallData.declined
                      (CallData.set_status CallData.declined d)) /\
          writes (rt (declineCall_timer_between h (render w) w))
            = writes (rt w) ++ [W_status (CallData.id ic) CallData.declined;
                                W_status (CallData.id ic) CallData.declined] /\
          incomingCall (ui (declineCall_timer_between h (render w) w)) = None)
    as (Hdb3 & Hwr3 & Hic3).
  { unfold declineCall_timer_between, declineCall_begin, declineCall_resume, render.
    rewrite Hic. unfold fireAutoDecline, CallService.declineCall, updateDoc.
    look. rewrite Hd. look. rewrite Hh. look. rewrite Hic.
    rewrite bool_decide_eq_true_2 by done. look. rewrite lookup_insert_eq. look.
    rewrite lookup_insert_eq, <- app_assoc. by repeat apply conj. }
  look. rewrite Hwr1, Hdb1, Hic1, Hwr2, Hdb2, Hic2, Hwr3, Hdb3, Hic3. by repeat apply conj.
Qed.

Lemma decline_and_auto_decline_timer_witness :
  let w := Watcher.bob_prompted in
  let ic := CallData.mk "call1" Watcher.alice_doc in
  let d := Watcher.alice_doc in
  let manual_first := fireAutoDecline 1 (declineCall (render w) w) in
  let timer := fireAutoDecline 1 w in
  let timer_first := declineCall (render timer) timer in
  let timer_between := declineCall_timer_between 1 (render w) w in
  (incomingCall (ui w) = Some ic /\ autoDeclines (rt w) !! 1 = Some (CallData.id ic) /\
   db (rt w) !! CallData.id ic = Some d) /\
  writes (rt manual_first)
    = (writes (rt w) ++ [W_status (CallData.id ic) CallData.declined]) /\
  writes (rt timer_first)
    = (writes (rt w) ++ [W_status (CallData.id ic) CallData.declined]) /\
  writes (rt timer_between)
    = (writes (rt w) ++ [W_status (CallData.id ic) CallData.declined;
                         W_status (CallData.id ic) CallData.declined]) /\
  CallData.status <$> db (rt manual_first) !! CallData.id ic = Some CallData.declined /\
  CallData.status <$> db (rt timer_first) !! CallData.id ic = Some CallData.declined /\
  CallData.status <$> db (rt timer_between) !! CallData.id ic = Some CallData.declined /\
  incomingCall (ui manual_first) = None /\ incomingCall (ui timer_first) = None /\
  incomingCall (ui timer_between) = None.
Proof.
  assert (incomingCall (ui Watcher.bob_prompted)
          = Some (CallData.mk "call1" Watcher.alice_doc)) as H1 by (vm_compute; reflexivity).
  assert (autoDeclines (rt Watcher.bob_prompted) !! 1
          = Some (CallData.id (CallData.mk "call1" Watcher.alice_doc))) as H2
    by (vm_compute; reflexivity).
  assert (db (rt Watcher.bob_prompted) !! CallData.id (CallData.mk "call1" Watcher.alice_doc)
          = Some Watcher.alice_doc) as H3 by (vm_compute; reflexivity).
  split; [by repeat apply conj|].
  exact (decline_and_auto_decline_timer 1 _ _ Watcher.bob_prompted H1 H2 H3).
Defined.

(** ** [initiateCall]: the paths the claims leave out *)

(** X19.  The calling path.  For a signed-in, idle client with the
    microphone granted, an offer produced and the record stored,
    [initiateCall] creates the record [ringing] with the caller's and the
    receiver's identity, the offer, no answer and empty candidate arrays;
    moves the session to [ringing] (not [isInCall]); sets the record id, the
    listener, the 60 s timer and the caller flag; and leaves the call timer
    alone.  The only toast is "Calling <name>...". *)
Theorem initiateCall_rings
    (r : Render) (peerId peerName peerPhoto : string) (x : Setup) (w : World)
    (uid : string) (p : UserProfile) (stream : MediaStream)
    (offer : RTCSessionDescriptionInit) (callId : string) :
  currentUser r = Some uid -> userProfile r = Some p -> idle r ->
  fst (requestMicrophoneAccess (browser x) w) = Some stream ->
  localDescription x = Some offer -> newCallId x = Some callId ->
  let w' := initiateCall r peerId peerName peerPhoto x w in
  let h := nextHandle (rt w) in
  db (rt w') !! callId
    = Some (CallData.mkDoc uid peerId (name p) peerName (photo_or_empty p) peerPhoto
              CallData.ringing (Some (mkSdp (sdp_type offer) (sdp offer))) None [] [] None) /\
  writes (rt w') = (writes (rt w) ++ [W_create callId]) /\
  currentCall (ui w')
    = Some (CallState.mk peerId peerName peerPhoto 0 false CallState.ringing) /\
  isInCall (ui w') = isInCall (ui w) /\ callDuration (ui w') = callDuration (ui w) /\
  refs w' = mkRefs (intervalRef (refs w)) (Some h) (Some stream) (remoteAudioSrc (refs w))
                   (Some callId) (Some (S (S h))) true (Some (S h)) /\
  listeners (rt w') !! S h = Some (mkListener r callId h) /\
  timeouts (rt w') !! S (S h) = Some (mkRingTimeout r callId (S h)) /\
  connections (rt w') !! h
    = Some (mkPc (currentCallDocRef (refs w)) true r false (length (audioTracks stream))
              (Some offer) None []) /\
  intervals (rt w') = intervals (rt w) /\
  toasts (rt w') = (toasts (rt w) ++ [(t_success, "Calling " +:+ peerName +:+ "...")]).
Proof.
  intros Hu Hp [Hin Hcc] Hm Hoff Hid. unfold initiateCall.
  rewrite Hu, Hp, Hin, Hcc. cbn [orb].
  rewrite bool_decide_eq_false_2 by (intros [? [=]]).
  set (w1 := setCurrentCall _ _).
  pose proof (requestMicrophoneAccess_frame (browser x) w1) as Hf.
  pose proof (requestMicrophoneAccess_stream (browser x) w1 w) as Hs.
  pose proof (requestMicrophoneAccess_granted_toasts (browser x) w1) as Hto.
  destruct (requestMicrophoneAccess (browser x) w1) as [s w2]. proj.
  rewrite Hm in Hs. subst s.
  destruct Hf as (Hui & Hrefs & Hdb & Hwr & Hco & Hli & Hti & Hint & Hnh).
  specialize (Hto (ex_intro _ stream eq_refl)).
  unfold createPeerConnection, alloc. proj. rewrite Hoff, Hid. look.
  rewrite Hui, Hrefs, Hwr, Hco, Hli, Hti, Hint, Hnh, Hto. subst w1. look.
  rewrite !lookup_insert_eq, !alter_insert_eq, lookup_insert_eq.
  by repeat apply conj.
Qed.

Lemma initiateCall_rings_witness :
  let w := Scenario.alice0 in
  let r := render w in
  let x := Scenario.setup in
  let p := mkProfile "Alice" None in
  let stream := mkStream [true] in
  let w' := initiateCall r "bob" "Bob" "" x w in
  let h := nextHandle (rt w) in
  (currentUser r = Some "alice" /\ userProfile r = Some p /\ idle r /\
   fst (requestMicrophoneAccess (browser x) w) = Some stream /\
   localDescription x = Some Scenario.offer /\ newCallId x = Some "call1") /\
  db (rt w') !! "call1"
    = Some (CallData.mkDoc "alice" "bob" (name p) "Bob" (photo_or_empty p) ""
              CallData.ringing
              (Some (mkSdp (sdp_type Scenario.offer) (sdp Scenario.offer))) None [] [] None) /\
  writes (rt w') = (writes (rt w) ++ [W_create "call1"]) /\
  currentCall (ui w') = Some (CallState.mk "bob" "Bob" "" 0 false CallState.ringing) /\
  isInCall (ui w') = isInCall (ui w) /\ callDuration (ui w') = callDuration (ui w) /\
  refs w' = mkRefs (intervalRef (refs w)) (Some h) (Some stream) (remoteAudioSrc (refs w))
                   (Some "call1") (Some (S (S h))) true (Some (S h)) /\
  listeners (rt w') !! S h = Some (mkListener r "call1" h) /\
  timeouts (rt w') !! S (S h) = Some (mkRingTimeout r "call1" (S h)) /\
  connections (rt w') !! h
    = Some (mkPc (currentCallDocRef (refs w)) true r false (length (audioTracks stream))
              (Some Scenario.offer) None []) /\
  intervals (rt w') = intervals (rt w) /\
  toasts (rt w') = (toasts (rt w) ++ [(t_success, "Calling " +:+ "Bob" +:+ "...")]).
Proof.
  assert (idle (render Scenario.alice0)) as Hi by (split; reflexivity).
  split; [by repeat apply conj|].
  exact (initiateCall_rings (render Scenario.alice0) "bob" "Bob" "" Scenario.setup
           Scenario.alice0 "alice" (mkProfile "Alice" None) (mkStream [true])
           Scenario.offer "call1" eq_refl eq_refl Hi eq_refl eq_refl eq_refl).
Defined.

(** X20.  A failure after the microphone was granted aborts the attempt
    through [endCall].  When creating the offer fails, or the store refuses
    the new record, the client is Idle again, every ref is cleared (stream
    dropped), the peer connection just created is closed, no listener or
    timer is left in the refs, no record and no [CallLog] is written; the
    user sees one error toast, the failure message, and nothing else
    ([endCall] shows nothing). *)
Theorem initiateCall_setup_failure
    (r : Render) (peerId peerName peerPhoto : string) (x : Setup) (w : World)
    (uid : string) (p : UserProfile) (stream : MediaStream) :
  currentUser r = Some uid -> userProfile r = Some p -> idle r ->
  currentCallDocRef (refs w) = None ->
  fst (requestMicrophoneAccess (browser x) w) = Some stream ->
  localDescription x = None \/ newCallId x = None ->
  let w' := initiateCall r peerId peerName peerPhoto x w in
  idle (ui w') /\
  refs w' = mkRefs None None None None None None false None /\
  pc_closed <$> connections (rt w') !! nextHandle (rt w) = Some true /\
  db (rt w') = db (rt w) /\ writes (rt w') = writes (rt w) /\
  callHistory (ui w') = callHistory (ui w) /\
  (exists msg, toasts (rt w') = (toasts (rt w) ++ [(t_error, msg)])).
Proof.
  intros Hu Hp [Hin Hcc] Hdoc Hm Hfail. unfold initiateCall.
  rewrite Hu, Hp, Hin, Hcc. cbn [orb].
  rewrite bool_decide_eq_false_2 by (intros [? [=]]).
  set (w1 := setCurrentCall _ _).
  pose proof (requestMicrophoneAccess_frame (browser x) w1) as Hf.
  pose proof (requestMicrophoneAccess_stream (browser x) w1 w) as Hs.
  pose proof (requestMicrophoneAccess_granted_toasts (browser x) w1) as Hto.
  destruct (requestMicrophoneAccess (browser x) w1) as [s w2]. proj.
  rewrite Hm in Hs. subst s.
  destruct Hf as (Hui & Hrefs & Hdb & Hwr & Hco & Hli & Hti & Hint & Hnh).
  specialize (Hto (ex_intro _ stream eq_refl)).
  unfold createPeerConnection, alloc. proj.
  assert (forall w3,
            ui w3 = ui w1 -> db (rt w3) = db (rt w) -> writes (rt w3) = writes (rt w) ->
            toasts (rt w3) = toasts (rt w) ++ [(t_error, "Failed to initiate call")] ->
            currentCallDocRef (refs w3) = None ->
            peerConnectionRef (refs w3) = Some (nextHandle (rt w)) ->
            is_Some (connections (rt w3) !! nextHandle (rt w)) ->
            idle (ui (endCall r w3)) /\
            refs (endCall r w3) = mkRefs None None None None None None false None /\
            pc_closed <$> connections (rt (endCall r w3)) !! nextHandle (rt w) = Some true /\
            db (rt (endCall r w3)) = db (rt w) /\ writes (rt (endCall r w3)) = writes (rt w) /\
            callHistory (ui (endCall r w3)) = callHistory (ui w) /\
            (exists msg, toasts (rt (endCall r w3)) = toasts (rt w) ++ [(t_error, msg)]))
    as Hend.
  { intros w3 H1 H2 H3 H4 H5 H6 [pc H7].
    destruct (endCall_idle r w3) as (Hidle & _ & Hr).
    split; [exact Hidle|]. split; [exact Hr|].
    rewrite endCall_history, Hcc.
    destruct (endCall_store r w3) as (-> & -> & -> & _).
    rewrite endCall_unfold.
    destruct (endCall_resume_spec r (endCall_begin r w3))
      as (_ & _ & _ & _ & _ & _ & _ & _ & -> & _).
    destruct (endCall_begin_spec r w3)
      as (_ & _ & -> & -> & _ & _ & _ & -> & -> & _).
    rewrite H5, H6, H2, H3, H4, H1. simpl. rewrite app_nil_r, lookup_alter_eq, H7.
    subst w1. look. repeat apply conj; try done. by eexists. }
  destruct (localDescription x) as [offer|].
  - destruct Hfail as [[=]|Hid]. rewrite Hid. look.
    apply Hend; look; rewrite ?Hui, ?Hrefs, ?Hdb, ?Hwr, ?Hto, ?Hnh, ?Hco;
      subst w1; look; try done.
    rewrite !lookup_alter_eq, lookup_insert_eq. eauto.
  - apply Hend; look; rewrite ?Hui, ?Hrefs, ?Hdb, ?Hwr, ?Hto, ?Hnh, ?Hco;
      subst w1; look; try done.
    rewrite !lookup_alter_eq, lookup_insert_eq. eauto.
Qed.

Lemma initiateCall_setup_failure_witness :
  let w := Scenario.alice0 in
  let r := render w in
  let x := mkSetup Scenario.granted (Some Scenario.offer) true None in
  let w' := initiateCall r "bob" "Bob" "" x w in
  (currentUser r = Some "alice" /\ userProfile r = Some (mkProfile "Alice" None) /\ idle r /\
   currentCallDocRef (refs w) = None /\
   fst (requestMicrophoneAccess (browser x) w) = Some (mkStream [true]) /\
   (localDescription x = None \/ newCallId x = None)) /\
  idle (ui w') /\
  refs w' = mkRefs None None None None None None false None /\
  pc_closed <$> connections (rt w') !! nextHandle (rt w) = Some true /\
  db (rt w') = db (rt w) /\ writes (rt w') = writes (rt w) /\
  callHistory (ui w') = callHistory (ui w) /\
  (exists msg, toasts (rt w') = (toasts (rt w) ++ [(t_error, msg)])).
Proof.
  assert (idle (render Scenario.alice0)) as Hi by (split; reflexivity).
  assert (localDescription (mkSetup Scenario.granted (Some Scenario.offer) true None) = None \/
          newCallId (mkSetup Scenario.granted (Some Scenario.offer) true None) = None) as Hf
    by (right; reflexivity).
  split; [by repeat apply conj|].
  exact (initiateCall_setup_failure (render Scenario.alice0) "bob" "Bob" ""
           (mkSetup Scenario.granted (Some Scenario.offer) true None) Scenario.alice0
           "alice" (mkProfile "Alice" None) (mkStream [true])
           eq_refl eq_refl Hi eq_refl eq_refl Hf).
Defined.

(** ** Snapshots of the record on the caller's side *)

(** X21.  Snapshots that end nothing.  A deleted record ([null]), a
    record still [ringing], and an [accepted] record without an answer leave
    the caller's world exactly as it was; and a snapshot for a listener that
    has been detached is not handled at all. *)
Theorem snapshots_without_effect
    (h : nat) (l : CallListener) (cd : option CallData.t) (remoteOk : bool) (w : World) :
  (cd = None \/
   (exists c, cd = Some c /\
      (CallData.status (CallData.data c) = CallData.ringing \/
       (CallData.status (CallData.data c) = CallData.accepted /\
        CallData.answer (CallData.data c) = None)))) ->
  onCallSnapshot h l cd remoteOk w = w /\
  (listeners (rt w) !! h = None -> forall cd', deliver h cd' remoteOk w = w).
Proof.
  intros H. split.
  - unfold onCallSnapshot.
    destruct H as [->|(c & -> & [->|[-> ->]])]; [done| |done].
    by destruct (CallData.answer (CallData.data c)).
  - intros Hl cd'. unfold deliver. by rewrite Hl.
Qed.

Lemma snapshots_without_effect_witness :
  let l := mkListener (render Scenario.alice0) "call1" 1 in
  let cd := CallService.snapshot "call1" Scenario.alice_ringing in
  (cd = None \/
   (exists c, cd = Some c /\
      (CallData.status (CallData.data c) = CallData.ringing \/
       (CallData.status (CallData.data c) = CallData.accepted /\
        CallData.answer (CallData.data c) = None)))) /\
  onCallSnapshot 2 l cd true Scenario.alice_ringing = Scenario.alice_ringing /\
  (listeners (rt Scenario.alice_ringing) !! 2 = None ->
   forall cd', deliver 2 cd' true Scenario.alice_ringing = Scenario.alice_ringing).
Proof.
  assert (CallService.snapshot "call1" Scenario.alice_ringing = None \/
          (exists c, CallService.snapshot "call1" Scenario.alice_ringing = Some c /\
             (CallData.status (CallData.data c) = CallData.ringing \/
              (CallData.status (CallData.data c) = CallData.accepted /\
               CallData.answer (CallData.data c) = None)))) as H.
  { right. exists (CallData.mk "call1" Watcher.alice_doc).
    split; [vm_compute; reflexivity|]. left. reflexivity. }
  split; [exact H|].
  exact (snapshots_without_effect 2 (mkListener (render Scenario.alice0) "call1" 1)
           _ true Scenario.alice_ringing H).
Defined.

(** X22.  When the caller's listener sees the record [ended] (the peer
    hung up), the call is ended locally: the client is Idle, every ref is
    cleared, the listener is detached, the peer connection the ref pointed to
    is closed, and the record of the current call is written [ended] once
    more, with the duration the handler's render knew. *)
Theorem ended_snapshot_ends_call
    (h : nat) (l : CallListener) (cd : CallData.t) (remoteOk : bool) (w : World) :
  CallData.status (CallData.data cd) = CallData.ended ->
  let w' := onCallSnapshot h l (Some cd) remoteOk w in
  idle (ui w') /\
  refs w' = mkRefs None None None None None None false None /\
  listeners (rt w') !! h = None /\
  (forall pc, peerConnectionRef (refs w) = Some pc ->
     pc_closed <$> connections (rt w') !! pc
       = (fun _ => true) <$> connections (rt w) !! pc) /\
  (forall callId d,
      currentCallDocRef (refs w) = Some callId -> callId <> "" ->
      db (rt w) !! callId = Some d ->
      db (rt w') !! callId
        = Some (CallData.set_duration (callDuration (l_render l))
                  (CallData.set_status CallData.ended d))).
Proof.
  intros Hst. unfold onCallSnapshot. rewrite Hst. cbv zeta.
  destruct (endCall_then_unsubscribe (l_render l) h w) as (-> & -> & -> & _ & -> & ->).
  destruct (endCall_idle (l_render l) w) as (Hidle & _ & Hrefs).
  split; [exact Hidle|]. split; [exact Hrefs|]. split; [apply lookup_delete_eq|].
  split.
  - intros pc Hpc. destruct (endCall_store (l_render l) w) as (_ & _ & -> & _).
    destruct (endCall_begin_spec (l_render l) w) as (_ & _ & _ & _ & _ & _ & _ & -> & _).
    rewrite Hpc, lookup_alter_eq. by destruct (connections (rt w) !! pc).
  - intros callId d. apply endCall_marks_record_ended.
Qed.

Lemma ended_snapshot_ends_call_witness :
  let w := Scenario.alice_ringing in
  let l := mkListener (render Scenario.alice0) "call1" 1 in
  let cd := CallData.mk "call1" (CallData.set_status CallData.ended Watcher.alice_doc) in
  let w' := onCallSnapshot 2 l (Some cd) true w in
  CallData.status (CallData.data cd) = CallData.ended /\
  idle (ui w') /\
  refs w' = mkRefs None None None None None None false None /\
  listeners (rt w') !! 2 = None /\
  (forall pc, peerConnectionRef (refs w) = Some pc ->
     pc_closed <$> connections (rt w') !! pc
       = (fun _ => true) <$> connections (rt w) !! pc) /\
  (forall callId d,
      currentCallDocRef (refs w) = Some callId -> callId <> "" ->
      db (rt w) !! callId = Some d ->
      db (rt w') !! callId
        = Some (CallData.set_duration (callDuration (l_render l))
                  (CallData.set_status CallData.ended d))).
Proof.
  split; [reflexivity|].
  exact (ended_snapshot_ends_call 2 (mkListener (render Scenario.alice0) "call1" 1)
           (CallData.mk "call1" (CallData.set_status CallData.ended Watcher.alice_doc))
           true Scenario.alice_ringing eq_refl).
Defined.

(** ** [endCall] and the callbacks it cancels *)

(** X23.  [endCall] cancels what [initiateCall] registered.  The listener
    in [callListenerRef] and the 60 s timer in [callTimeoutRef] are gone after
    [endCall]: a snapshot delivered to that listener, or the expiry of that
    timer, no longer changes anything. *)
Theorem endCall_cancels_callbacks (r : Render) (w : World) :
  let w' := endCall r w in
  (forall h cd remoteOk, callListenerRef (refs w) = Some h -> deliver h cd remoteOk w' = w') /\
  (forall h, callTimeoutRef (refs w) = Some h -> fireRingTimeout h w' = w').
Proof.
  cbv zeta.
  destruct (endCall_store r w) as (_ & _ & _ & Hli).
  assert (timeouts (rt (endCall r w)) = timeouts (rt (endCall_begin r w))) as Hti.
  { rewrite endCall_unfold.
    by destruct (endCall_resume_spec r (endCall_begin r w)) as (_ & _ & _ & _ & _ & -> & _). }
  destruct (endCall_begin_spec r w) as (_ & _ & _ & _ & Hl & Ht & _).
  split.
  - intros h cd remoteOk Hh. unfold deliver.
    by rewrite Hli, Hl, Hh, lookup_delete_eq.
  - intros h Hh. unfold fireRingTimeout.
    by rewrite Hti, Ht, Hh, lookup_delete_eq.
Qed.

(** X24.  [endCall] can be called in any state, from any render: afterwards
    the client is Idle with the duration at 0, every ref is cleared, the
    interval, listener, timer and peer connection the refs pointed to are
    stopped, detached, cleared and closed, no toast is shown (the
    [toast.info] at its end fails), and [endCall] prepends at most one
    [CallLog] to the history, with status [completed]. *)
Theorem endCall_always_returns_to_idle (r : Render) (w : World) :
  let w' := endCall r w in
  idle (ui w') /\ callDuration (ui w') = 0 /\
  refs w' = mkRefs None None None None None None false None /\
  (forall h, intervalRef (refs w) = Some h -> h ∉ intervals (rt w')) /\
  (forall h, callListenerRef (refs w) = Some h -> listeners (rt w') !! h = None) /\
  (forall h, callTimeoutRef (refs w) = Some h -> timeouts (rt w') !! h = None) /\
  (forall h, peerConnectionRef (refs w) = Some h ->
     pc_closed <$> connections (rt w') !! h = (fun _ => true) <$> connections (rt w) !! h) /\
  toasts (rt w') = toasts (rt w) /\
  (callHistory (ui w') = callHistory (ui w) \/
   exists log, callHistory (ui w') = log :: callHistory (ui w) /\
               CallLog.status log = CallLog.completed).
Proof.
  cbv zeta. destruct (endCall_idle r w) as (Hidle & Hdur & Hrefs).
  split; [exact Hidle|]. split; [exact Hdur|]. split; [exact Hrefs|].
  pose proof (endCall_logs_completed r w) as Hhist.
  rewrite endCall_unfold in *.
  destruct (endCall_resume_spec r (endCall_begin r w))
    as (_ & _ & _ & _ & Hli & Hti & Hco & Hint & Hto & _).
  destruct (endCall_begin_spec r w)
    as (_ & Hr1 & _ & _ & Hli1 & Hti1 & Hint1 & Hco1 & Hto1 & _).
  rewrite Hli, Hti, Hco, Hint, Hto, Hli1, Hti1, Hco1, Hto1, Hr1, Hint1. cbn [intervalRef].
  repeat apply conj.
  - intros h ->. intros [? _]%list_elem_of_filter. done.
  - intros h ->. apply lookup_delete_eq.
  - intros h ->. apply lookup_delete_eq.
  - intros h ->. rewrite lookup_alter_eq. by destruct (connections (rt w) !! h).
  - done.
  - exact Hhist.
Qed.

(** ** The components that start calls *)

(** X25.  The call buttons of the contact list and of the chat window never
    start a second call.  For a signed-in user who is busy ([isInCall] set, or
    a session existing), [handleCall] only shows "Already in a call": by its
    own check when [isInCall] is set, through [initiateCall] otherwise.
    [handleVoiceCall] does the same when only a session exists; when
    [isInCall] is set it changes nothing at all, not even a toast, since
    [toast] is not defined in its file. *)
Theorem call_buttons_refuse_when_busy
    (r : Render) (contactId contactName : string) (contactPhotoURL : option string)
    (x : Setup) (w : World) :
  logged_in r ->
  isInCall r = true \/ is_Some (currentCall r) ->
  handleCall r contactId contactName contactPhotoURL x w
    = toast t_error "Already in a call" w /\
  handleVoiceCall r contactId contactName contactPhotoURL x w
    = (if isInCall r then w else toast t_error "Already in a call" w).
Proof.
  intros [[uid Hu] [p Hp]] Hbusy. unfold handleCall, handleVoiceCall.
  destruct (isInCall r) eqn:Hin; [done|].
  destruct Hbusy as [[=]|Hc]. unfold initiateCall. rewrite Hu, Hp, Hin.
  by rewrite bool_decide_eq_true_2.
Qed.

Lemma call_buttons_refuse_when_busy_witness :
  let w := Scenario.alice_ringing in
  logged_in (render w) /\
  (isInCall (render w) = true \/ is_Some (currentCall (render w))) /\
  handleCall (render w) "carol" "Carol" None Scenario.setup w
    = toast t_error "Already in a call" w /\
  handleVoiceCall (render w) "carol" "Carol" None Scenario.setup w
    = (if isInCall (render w) then w else toast t_error "Already in a call" w).
Proof.
  assert (logged_in (render Scenario.alice_ringing)) as Hl by (split; vm_compute; eauto).
  assert (isInCall (render Scenario.alice_ringing) = true \/
          is_Some (currentCall (render Scenario.alice_ringing))) as Hb
    by (right; vm_compute; eauto).
  split; [exact Hl|]. split; [exact Hb|].
  exact (call_buttons_refuse_when_busy (render Scenario.alice_ringing) "carol" "Carol" None
           Scenario.setup Scenario.alice_ringing Hl Hb).
Defined.

(** X26.  Calling back from the history dials the other party.  For the
    [CallLog] that [endCall] builds for a session with peer [c], whether the
    user was caller or receiver, [handleCallBack] runs [initiateCall] with the
    peer's id, name and photo (the peer being someone else than the user). *)
Theorem handleCallBack_dials_the_peer
    (r : Render) (isCaller : bool) (uid : string) (p : UserProfile) (c : CallState.t)
    (duration : nat) (x : Setup) (w : World) :
  currentUser r = Some uid -> CallState.peerId c <> uid ->
  handleCallBack r (callLog isCaller uid p c duration) x w
    = initiateCall r (CallState.peerId c) (CallState.peerName c) (CallState.peerPhoto c) x w.
Proof.
  intros Hu Hne. unfold handleCallBack, callBackContact, isIncoming, callLog. rewrite Hu.
  destruct isCaller; cbn [CallLog.receiverId CallLog.callerId CallLog.callerName
    CallLog.receiverName CallLog.callerPhoto CallLog.receiverPhoto].
  - rewrite bool_decide_eq_false_2; [done|]. intros [= ?]. by destruct Hne.
  - by rewrite bool_decide_eq_true_2.
Qed.

Lemma handleCallBack_dials_the_peer_witness :
  let r := render Scenario.alice0 in
  let c := CallState.mk "bob" "Bob" "" 5 false CallState.connected in
  currentUser r = Some "alice" /\ CallState.peerId c <> "alice" /\
  handleCallBack r (callLog false "alice" (mkProfile "Alice" None) c 5) Scenario.setup
    Scenario.alice0
    = initiateCall r (CallState.peerId c) (CallState.peerName c) (CallState.peerPhoto c)
        Scenario.setup Scenario.alice0.
Proof.
  assert (CallState.peerId (CallState.mk "bob" "Bob" "" 5 false CallState.connected)
          <> "alice") as Hne by discriminate.
  split; [reflexivity|]. split; [exact Hne|].
  exact (handleCallBack_dials_the_peer (render Scenario.alice0) false "alice"
           (mkProfile "Alice" None) _ 5 Scenario.setup Scenario.alice0 eq_refl Hne).
Defined.

(** ** The collection queries *)

(** X27.  What the two queries select.  Every call of the collection is in
    the history of its caller and of its receiver, and in nobody else's; the
    calls ringing for a user are all part of that user's history; both
    results keep the order of the collection. *)
Theorem call_queries (userId : string) (calls : list CallData.t) :
  (forall c, c ∈ callHistoryQuery userId calls <->
             c ∈ calls /\ (CallData.callerId (CallData.data c) = userId \/
                           CallData.receiverId (CallData.data c) = userId)) /\
  (forall c, c ∈ incomingCallsQuery userId calls <->
             c ∈ calls /\ CallData.receiverId (CallData.data c) = userId /\
             CallData.status (CallData.data c) = CallData.ringing) /\
  incomingCallsQuery userId calls `sublist_of` callHistoryQuery userId calls /\
  callHistoryQuery userId calls `sublist_of` calls.
Proof.
  unfold callHistoryQuery, incomingCallsQuery. repeat apply conj.
  - intros c. rewrite list_elem_of_filter. tauto.
  - intros c. rewrite list_elem_of_filter. tauto.
  - rewrite <- (list_filter_filter_l
                  (fun c => CallData.receiverId (CallData.data c) = userId /\
                            CallData.status (CallData.data c) = CallData.ringing)
                  (fun c => CallData.callerId (CallData.data c) = userId \/
                            CallData.receiverId (CallData.data c) = userId) calls)
      by tauto.
    apply sublist_filter.
  - apply sublist_filter.
Qed.

(** ** Display of a duration *)

Lemma string_length_app (a b : string) :
  String.length (a +:+ b) = String.length a + String.length b.
Proof.
  induction a as [|c a IH]; [done|].
  change (String c a +:+ b) with (String c (a +:+ b)). simpl. by rewrite IH.
Qed.

Lemma string_app_inj_tail (a a' b b' : string) :
  String.length b = String.length b' -> a +:+ b = a' +:+ b' -> a = a' /\ b = b'.
Proof.
  revert a'. induction a as [|c a IH]; intros [|c' a'] Hl H.
  - done.
  - apply (f_equal String.length) in H. rewrite !string_length_app in H. simpl in H. lia.
  - apply (f_equal String.length) in H. rewrite !string_length_app in H. simpl in H. lia.
  - change (String c (a +:+ b) = String c' (a' +:+ b')) in H.
    injection H as -> H. destruct (IH a' Hl H) as [-> ->]. done.
Qed.

Lemma seconds_field (n : nat) :
  n < 60 ->
  String.length (padStart0 2 (pretty n)) = 2 /\ field_value (padStart0 2 (pretty n)) = n.
Proof.
  intros Hn.
  do 60 (destruct n as [|n]; [split; vm_compute; reflexivity|]). lia.
Qed.

(** X28.  [formatDuration] writes the minutes, a colon and the seconds on
    exactly two digits, and loses nothing: two different durations are never
    shown alike. *)
Theorem formatDuration_injective (s1 s2 : nat) :
  formatDuration s1 = formatDuration s2 -> s1 = s2.
Proof.
  unfold formatDuration. intros H.
  pose proof (Nat.mod_upper_bound s1 60 ltac:(lia)) as H1.
  pose proof (Nat.mod_upper_bound s2 60 ltac:(lia)) as H2.
  destruct (seconds_field _ H1) as [L1 V1]. destruct (seconds_field _ H2) as [L2 V2].
  apply string_app_inj_tail in H as [Hm Hs]; [|by rewrite !string_length_app, L1, L2].
  apply string_app_inj_tail in Hs as [_ Hs]; [|by rewrite L1, L2].
  apply (inj pretty) in Hm.
  rewrite Hs in V1. rewrite V1 in V2.
  rewrite (Nat.div_mod_eq s1 60), (Nat.div_mod_eq s2 60). lia.
Qed.

Lemma formatDuration_injective_witness :
  formatDuration 65 = formatDuration 65 /\ 65 = 65.
Proof.
  split; [reflexivity|]. exact (formatDuration_injective 65 65 eq_refl).
Defined.

(** Some durations as shown. *)
Example formatDuration_samples :
  formatDuration 0 = "0:00" /\ formatDuration 65 = "1:05" /\ formatDuration 3600 = "60:00".
Proof. repeat apply conj; vm_compute; reflexivity. Qed.

(** ** From answer to history: the duration that is logged *)

(** Seconds passing change the duration and nothing else of the React state. *)
Lemma seconds_ui n w :
  ui (Nat.iter n second w)
    = mkRender (currentUser (ui w)) (userProfile (ui w)) (isInCall (ui w))
        (currentCall (ui w)) (callHistory (ui w)) (incomingCall (ui w))
        (callDuration (ui w) + n * length (intervals (rt w))).
Proof.
  induction n as [|n IH].
  - simpl. destruct w as [[] ? ?]. simpl. f_equal. lia.
  - destruct (seconds_spec n w) as (_ & Hrt & _).
    simpl. rewrite second_eq. look. rewrite IH, Hrt. look. f_equal. lia.
Qed.

(** X29.  The duration of a completed call.  The caller's listener sees the
    answer and the transport takes it, no other interval being live; [n]
    seconds later the user hangs up (the [endCall] of the current render).
    Then exactly one [CallLog] is appended; it names the peer of the session,
    has status [completed] and duration [n]; and the record of the call is
    [ended] with duration [n]. *)
Theorem completed_call_is_logged_with_its_duration
    (h : nat) (l : CallListener) (cd : CallData.t) (answer : RTCSessionDescriptionInit)
    (w : World) (n : nat) (c : CallState.t) (uid : string) (p : UserProfile)
    (callId : string) (d : CallData.doc) :
  CallData.status (CallData.data cd) = CallData.accepted ->
  CallData.answer (CallData.data cd) = Some answer ->
  intervals (rt w) = [] ->
  currentCall (ui w) = Some c -> currentUser (ui w) = Some uid ->
  userProfile (ui w) = Some p ->
  currentCallDocRef (refs w) = Some callId -> callId <> "" ->
  db (rt w) !! callId = Some d ->
  let talking := Nat.iter n second (onCallSnapshot h l (Some cd) true w) in
  let w' := endCall (render talking) talking in
  callHistory (ui w')
    = callLog (isCallerRef (refs w)) uid p (CallState.with_status CallState.connected c) n
        :: callHistory (ui w) /\
  CallLog.duration (callLog (isCallerRef (refs w)) uid p
                      (CallState.with_status CallState.connected c) n) = n /\
  db (rt w') !! callId
    = Some (CallData.set_duration n (CallData.set_status CallData.ended d)) /\
  idle (ui w').
Proof.
  intros Hs Ha Hint Hc Hu Hp Hdoc Hne Hd. cbv zeta.
  set (w1 := onCallSnapshot h l (Some cd) true w).
  assert (ui w1 = mkRender (Some uid) (Some p) (isInCall (ui w))
                    (Some (CallState.with_status CallState.connected c))
                    (callHistory (ui w)) (incomingCall (ui w)) 0 /\
          intervals (rt w1) = [nextHandle (rt w)] /\
          isCallerRef (refs w1) = isCallerRef (refs w) /\
          currentCallDocRef (refs w1) = Some callId /\
          db (rt w1) = db (rt w)) as (Hui1 & Hint1 & Hic1 & Hdoc1 & Hdb1).
  { subst w1. unfold onCallSnapshot. rewrite Hs, Ha. look.
    rewrite Hc, Hu, Hp, Hint, Hdoc. by repeat apply conj. }
  pose proof (seconds_ui n w1) as Hui2.
  destruct (seconds_spec n w1) as (_ & Hrt2 & Hrefs2).
  rewrite Hui1, Hint1 in Hui2. cbn [currentUser userProfile isInCall currentCall callHistory
    incomingCall callDuration length] in Hui2.
  replace (0 + n * 1) with n in Hui2 by lia.
  set (talking := Nat.iter n second w1) in *.
  split; [|split; [done|split; [|apply endCall_idle]]].
  - rewrite endCall_history. unfold render. rewrite Hui2. look.
    by rewrite Hrefs2, Hic1.
  - rewrite (endCall_marks_record_ended (render talking) talking callId d);
      [|by rewrite Hrefs2|done|by rewrite Hrt2, Hdb1].
    unfold render. by rewrite Hui2.
Qed.

Lemma completed_call_is_logged_with_its_duration_witness :
  let w := Scenario.alice_bob_accepted in
  let l := mkListener (render Scenario.alice0) "call1" 1 in
  let cd := CallData.mk "call1"
              (CallData.set_answer Scenario.answer
                 (CallData.set_status CallData.accepted Watcher.alice_doc)) in
  let c := CallState.mk "bob" "Bob" "" 0 false CallState.ringing in
  let p := mkProfile "Alice" None in
  let d := CallData.set_answer Scenario.answer
             (CallData.set_status CallData.accepted Watcher.alice_doc) in
  let talking := Nat.iter 5 second (onCallSnapshot 2 l (Some cd) true w) in
  let w' := endCall (render talking) talking in
  (CallData.status (CallData.data cd) = CallData.accepted /\
   CallData.answer (CallData.data cd) = Some Scenario.answer /\
   intervals (rt w) = [] /\
   currentCall (ui w) = Some c /\ currentUser (ui w) = Some "alice" /\
   userProfile (ui w) = Some p /\
   currentCallDocRef (refs w) = Some "call1" /\ "call1" <> "" /\
   db (rt w) !! "call1" = Some d) /\
  callHistory (ui w')
    = callLog (isCallerRef (refs w)) "alice" p
        (CallState.with_status CallState.connected c) 5 :: callHistory (ui w) /\
  CallLog.duration (callLog (isCallerRef (refs w)) "alice" p
                      (CallState.with_status CallState.connected c) 5) = 5 /\
  db (rt w') !! "call1"
    = Some (CallData.set_duration 5 (CallData.set_status CallData.ended d)) /\
  idle (ui w').
Proof.
  assert (intervals (rt Scenario.alice_bob_accepted) = []) as H3 by (vm_compute; reflexivity).
  assert (currentCall (ui Scenario.alice_bob_accepted)
          = Some (CallState.mk "bob" "Bob" "" 0 false CallState.ringing)) as H4
    by (vm_compute; reflexivity).
  assert (currentUser (ui Scenario.alice_bob_accepted) = Some "alice") as H5
    by (vm_compute; reflexivity).
  assert (userProfile (ui Scenario.alice_bob_accepted) = Some (mkProfile "Alice" None)) as H6
    by (vm_compute; reflexivity).
  assert (currentCallDocRef (refs Scenario.alice_bob_accepted) = Some "call1") as H7
    by (vm_compute; reflexivity).
  assert ("call1" <> "") as H8 by discriminate.
  assert (db (rt Scenario.alice_bob_accepted) !! "call1"
          = Some (CallData.set_answer Scenario.answer
                    (CallData.set_status CallData.accepted Watcher.alice_doc))) as H9
    by (vm_compute; reflexivity).
  split; [by repeat apply conj|].
  exact (completed_call_is_logged_with_its_duration 2
           (mkListener (render Scenario.alice0) "call1" 1)
           (CallData.mk "call1"
              (CallData.set_answer Scenario.answer
                 (CallData.set_status CallData.accepted Watcher.alice_doc)))
           Scenario.answer Scenario.alice_bob_accepted 5 _ "alice" _ "call1" _
           eq_refl eq_refl H3 H4 H5 H6 H7 H8 H9).
Defined.
